(** * Business and data analysis chatbot: ETL, tool loop and web form

    A shallow embedding of [business_data_analysis_chatbot_agent_langchain.py].
    The script loads a rentals dataset into a table (the ETL loop), keeps an
    in-memory store of chat histories, drives a language model through a
    hand-written tool-calling loop ([agent]) and shows the answer through a
    web form.

    Python dictionaries are finite maps ([gmap]), Python integers are [Z],
    Python floats are binary64 values, strings are byte strings.  The language model, the SQL tools and the forecasting
    pipeline are collaborators outside the script: they are parameters of the
    sections that need them, threaded through an explicit world state. *)

From Stdlib Require Import ZArith List String Ascii Floats.PrimFloat.
From stdpp Require Import base tactics option list strings gmap.

Local Open Scope Z_scope.
Local Open Scope string_scope.
Local Open Scope list_scope.
#[local] Arguments String.append : simpl nomatch.

(** ** Python's [datetime.isoformat] *)

Module PyDatetime.

Record datetime := {
  year : nat; month : nat; day : nat;
  hour : nat; minute : nat; second : nat; microsecond : nat
}.

Definition digit (d : nat) : ascii := ascii_of_nat (48 + d mod 10).

(** [zfill w n]: the [w] low decimal digits of [n], most significant
    first, as [%0wd] prints a number that fits in [w] digits. *)
Fixpoint zfill (w : nat) (n : nat) : string :=
  match w with
  | O => EmptyString
  | S w' => zfill w' (n / 10) +:+ String (digit n) EmptyString
  end.

(** [datetime.isoformat()] of a naive datetime: the microseconds are
    printed only when they are not zero. *)
Definition isoformat (d : datetime) : string :=
  zfill 4 (year d) +:+ "-" +:+ zfill 2 (month d) +:+ "-" +:+ zfill 2 (day d)
  +:+ "T" +:+ zfill 2 (hour d) +:+ ":" +:+ zfill 2 (minute d)
  +:+ ":" +:+ zfill 2 (second d)
  +:+ (if Nat.eqb (microsecond d) 0 then ""
       else "." +:+ zfill 6 (microsecond d)).

Example isoformat_whole_second :
  isoformat {| year := 2024; month := 3; day := 7; hour := 9; minute := 5;
               second := 0; microsecond := 0 |} = "2024-03-07T09:05:00".
Proof. reflexivity. Qed.

Example isoformat_micro :
  isoformat {| year := 2024; month := 12; day := 31; hour := 23;
               minute := 59; second := 58; microsecond := 1200 |}
  = "2024-12-31T23:59:58.001200".
Proof. reflexivity. Qed.

End PyDatetime.

(** ** The ETL loop (source lines 181-210) *)

Module ETL.
Import PyDatetime.

(** One entry of [zipHash]. *)
Record Geo := { city : string; county : string; state : string }.

(** One row of the dataset, with the columns the loop reads. *)
Record Row := {
  RegionType : Z;
  Region : string;
  HomeType : Z;
  Date : datetime;
  RentSmoothed : option float;
  RentSmoothedAdjusted : option float
}.

(** One row of the [rentals] table; [id] is the autoincrement key. *)
Record Rental := {
  id : Z;
  r_zip : string; r_city : string; r_county : string; r_state : string;
  home_type : Z; date : string;
  rent : option float; rent_adjusted : option float
}.

(** The loop's state: the table and the counter [row_count]. *)
Record EtlState := { db : list Rental; row_count : Z }.

Definition etl_init : EtlState := {| db := []; row_count := 0 |}.

Definition row_limit : Z := 10000.

(** [f"0{row['Region']}" if len(row["Region"]) < 5 else row["Region"]] *)
Definition normalize_zip (region : string) : string :=
  if (Z.of_nat (String.length region) <? 5)%Z then "0" +:+ region
  else region.

(** A float bound to a [FLOAT] column: SQLite stores a NaN as [NULL]. *)
Definition sql_float (x : option float) : option float :=
  match x with
  | Some f => if is_nan f then None else Some f
  | None => None
  end.

(** [INSERT INTO rentals ...]: the key is one more than the largest so
    far, which in a table that nothing deletes from is its size plus one. *)
Definition insert_rental (zip : string) (geo : Geo) (row : Row)
    (t : list Rental) : list Rental :=
  t ++ [ {| id := Z.of_nat (length t) + 1;
            r_zip := zip; r_city := city geo; r_county := county geo;
            r_state := state geo; home_type := HomeType row;
            date := isoformat (Date row);
            rent := sql_float (RentSmoothed row);
            rent_adjusted := sql_float (RentSmoothedAdjusted row) |} ].

Inductive ctl := Continue | Break.

(** [x is None] *)
Definition is_None {A} (x : option A) : bool :=
  match x with None => true | Some _ => false end.

(** The body of the [for] loop for one row. *)
Definition etl_body (zipHash : gmap string Geo) (row : Row) (st : EtlState)
    : EtlState * ctl :=
  if negb (RegionType row =? 0)%Z || is_None (RentSmoothed row)
  then (st, Continue)
  else
    let zip := normalize_zip (Region row) in
    match zipHash !! zip with
    | None => (st, Continue)
    | Some geo =>
      let st' := {| db := insert_rental zip geo row (db st);
                    row_count := row_count st + 1 |} in
      if (row_limit <=? row_count st')%Z then (st', Break)
      else (st', Continue)
    end.

(** The [for] loop over the dataset, [break] included. *)
Fixpoint etl_for (zipHash : gmap string Geo) (dataset : list Row)
    (st : EtlState) : EtlState :=
  match dataset with
  | [] => st
  | row :: rest =>
    match etl_body zipHash row st with
    | (st', Break) => st'
    | (st', Continue) => etl_for zipHash rest st'
    end
  end.

(** Every state the loop goes through, the first one included. *)
Fixpoint etl_trace (zipHash : gmap string Geo) (dataset : list Row)
    (st : EtlState) : list EtlState :=
  st :: match dataset with
        | [] => []
        | row :: rest =>
          match etl_body zipHash row st with
          | (st', Break) => [st']
          | (st', Continue) => etl_trace zipHash rest st'
          end
        end.

Definition etl (zipHash : gmap string Geo) (dataset : list Row) : list Rental :=
  db (etl_for zipHash dataset etl_init).

(** The three tests a row has to pass, as the loop makes them. *)
Definition accepted (zipHash : gmap string Geo) (row : Row) : bool :=
  (RegionType row =? 0)%Z && negb (is_None (RentSmoothed row))
  && negb (is_None (zipHash !! normalize_zip (Region row))).

Definition rejected (zipHash : gmap string Geo) (row : Row) : Prop :=
  RegionType row ≠ 0
  ∨ RentSmoothed row = None
  ∨ zipHash !! normalize_zip (Region row) = None.

(** The record the [INSERT] statement writes for [row]. *)
Definition rental_of (key : Z) (zip : string) (geo : Geo) (row : Row) : Rental :=
  {| id := key; r_zip := zip; r_city := city geo; r_county := county geo;
     r_state := state geo; home_type := HomeType row;
     date := isoformat (Date row); rent := sql_float (RentSmoothed row);
     rent_adjusted := sql_float (RentSmoothedAdjusted row) |}.

(** The data model's invariant on the geo table: keys are 5 characters. *)
Definition geo_keys_5 (zipHash : gmap string Geo) : Prop :=
  map_Forall (λ z _, String.length z = 5%nat) zipHash.

(** The loop invariant: the counter is the table's size, below the limit. *)
Definition etl_inv (st : EtlState) : Prop :=
  row_count st = Z.of_nat (length (db st)) ∧ (row_count st < row_limit)%Z.

Section EtlFacts.
Variable zipHash : gmap string Geo.

Lemma is_None_true {A} (x : option A) : is_None x = true ↔ x = None.
Proof. destruct x; simpl; split; congruence. Qed.

Lemma accepted_false row : accepted zipHash row = false ↔ rejected zipHash row.
Proof.
  unfold accepted, rejected.
  rewrite !andb_false_iff, !negb_false_iff, !is_None_true, Z.eqb_neq.
  tauto.
Qed.

Lemma accepted_true row :
  accepted zipHash row = true ↔
  RegionType row = 0 ∧ RentSmoothed row ≠ None
  ∧ ∃ geo, zipHash !! normalize_zip (Region row) = Some geo.
Proof.
  unfold accepted.
  rewrite !andb_true_iff, !negb_true_iff, Z.eqb_eq.
  destruct (RentSmoothed row) as [r|],
    (zipHash !! normalize_zip (Region row)) as [g|]; simpl.
  - split; [intros [[Hty _] _] | intros [Hty _]].
    + split; [exact Hty|]. split; [discriminate | exists g; reflexivity].
    + auto.
  - split; [intros [_ ?]; discriminate | intros (_ & _ & [? ?]); discriminate].
  - split; [intros [[_ ?] _]; discriminate | intros (_ & ? & _); congruence].
  - split; [intros [_ ?]; discriminate | intros (_ & ? & _); congruence].
Qed.

Lemma etl_body_rejected row st :
  rejected zipHash row → etl_body zipHash row st = (st, Continue).
Proof.
  intros [Hty | [Hrent | Hgeo]]; unfold etl_body.
  - apply Z.eqb_neq in Hty. rewrite Hty. reflexivity.
  - rewrite Hrent. simpl. rewrite orb_true_r. reflexivity.
  - rewrite Hgeo. destruct (_ || _); reflexivity.
Qed.

Lemma etl_body_accepted row st :
  accepted zipHash row = true →
  ∃ geo, zipHash !! normalize_zip (Region row) = Some geo ∧
    etl_body zipHash row st =
      ({| db := db st ++ [rental_of (Z.of_nat (length (db st)) + 1)
                            (normalize_zip (Region row)) geo row];
          row_count := row_count st + 1 |},
       if (row_limit <=? row_count st + 1)%Z then Break else Continue).
Proof.
  intros Hacc. apply accepted_true in Hacc as (Hty & Hrent & geo & Hgeo).
  exists geo. split; [exact Hgeo|].
  unfold etl_body. rewrite Hty, Hgeo.
  destruct (RentSmoothed row) as [r|] eqn:Hr; [|congruence].
  simpl. unfold insert_rental, rental_of. rewrite ?Hr.
  destruct (row_limit <=? row_count st + 1)%Z; reflexivity.
Qed.

(** A row that fails one of the tests can be taken out of the dataset. *)
Lemma etl_for_drop_rejected row pre post st :
  rejected zipHash row →
  etl_for zipHash (pre ++ row :: post) st = etl_for zipHash (pre ++ post) st.
Proof.
  intros Hrej. revert st.
  induction pre as [|r pre IH]; intros st; simpl.
  - rewrite (etl_body_rejected _ _ Hrej). reflexivity.
  - destruct (etl_body zipHash r st) as [st' []]; [apply IH | reflexivity].
Qed.

Lemma etl_trace_drop_rejected row pre post st :
  rejected zipHash row →
  ∀ s, s ∈ etl_trace zipHash (pre ++ row :: post) st
     ↔ s ∈ etl_trace zipHash (pre ++ post) st.
Proof.
  intros Hrej. revert st.
  induction pre as [|r pre IH]; intros st s; simpl.
  - rewrite (etl_body_rejected _ _ Hrej).
    destruct post as [|r' post]; simpl.
    + rewrite !elem_of_cons. tauto.
    + rewrite !elem_of_cons. tauto.
  - destruct (etl_body zipHash r st) as [st' []]; [|reflexivity].
    rewrite !elem_of_cons, IH. reflexivity.
Qed.

(** Every stored record was written for a row of the dataset that passed
    the three tests, with the fields the [INSERT] statement gives it. *)
Lemma etl_for_provenance dataset st rec :
  rec ∈ db (etl_for zipHash dataset st) →
  rec ∈ db st ∨
  ∃ row geo key, row ∈ dataset ∧ accepted zipHash row = true
    ∧ zipHash !! normalize_zip (Region row) = Some geo
    ∧ rec = rental_of key (normalize_zip (Region row)) geo row.
Proof.
  revert st. induction dataset as [|r ds IH]; intros st; simpl.
  - auto.
  - destruct (accepted zipHash r) eqn:Hacc.
    + destruct (etl_body_accepted r st Hacc) as (geo & Hgeo & ->).
      assert (Hnew : rec ∈ (db st ++
                [rental_of (Z.of_nat (length (db st)) + 1)
                   (normalize_zip (Region r)) geo r])%list →
              rec ∈ db st ∨
              ∃ row geo key, row ∈ r :: ds ∧ accepted zipHash row = true
                ∧ zipHash !! normalize_zip (Region row) = Some geo
                ∧ rec = rental_of key (normalize_zip (Region row)) geo row).
      { intros [Hin | Hin%list_elem_of_singleton]%elem_of_app; [auto|].
        right. exists r, geo. eexists. rewrite elem_of_cons. eauto. }
      destruct (row_limit <=? row_count st + 1)%Z; simpl.
      * exact Hnew.
      * intros [Hin | (row & g & key & Hrow & ?)]%IH.
        -- simpl in Hin. exact (Hnew Hin).
        -- right. exists row, g, key. rewrite elem_of_cons. eauto.
    + apply accepted_false in Hacc. rewrite (etl_body_rejected _ _ Hacc).
      intros [Hin | (row & g & key & Hrow & ?)]%IH; [auto|].
      right. exists row, g, key. rewrite elem_of_cons. eauto.
Qed.

Lemma etl_body_inv row st :
  etl_inv st →
  row_count (etl_body zipHash row st).1
    = Z.of_nat (length (db (etl_body zipHash row st).1))
  ∧ (row_count (etl_body zipHash row st).1 ≤ row_limit)%Z
  ∧ ((etl_body zipHash row st).2 = Continue →
     etl_inv (etl_body zipHash row st).1).
Proof.
  intros [Hcnt Hlt].
  destruct (accepted zipHash row) eqn:Hacc.
  - destruct (etl_body_accepted row st Hacc) as (geo & _ & ->).
    unfold etl_inv. simpl. rewrite length_app. simpl.
    destruct (Z.leb_spec row_limit (row_count st + 1)); split_and!; try lia.
    discriminate.
  - apply accepted_false in Hacc. rewrite (etl_body_rejected _ _ Hacc).
    unfold etl_inv. simpl. split_and!; auto; lia.
Qed.

(** The table never holds more than [row_limit] rows while the loop runs. *)
Lemma etl_trace_bound dataset st :
  etl_inv st →
  Forall (λ s, row_count s = Z.of_nat (length (db s))
               ∧ (Z.of_nat (length (db s)) ≤ row_limit)%Z)
         (etl_trace zipHash dataset st).
Proof.
  revert st. induction dataset as [|r ds IH]; intros st Hinv; simpl.
  - destruct Hinv. repeat constructor; lia.
  - constructor; [destruct Hinv; split; lia|].
    destruct (etl_body_inv r st Hinv) as (Hc & Hle & Hcont).
    destruct (etl_body zipHash r st) as [st' []]; simpl in *.
    + apply IH. auto.
    + repeat constructor; lia.
Qed.

Lemma etl_for_in_trace dataset st :
  etl_for zipHash dataset st ∈ etl_trace zipHash dataset st.
Proof.
  revert st. induction dataset as [|r ds IH]; intros st; simpl.
  - apply elem_of_cons. auto.
  - destruct (etl_body zipHash r st) as [st' []].
    + apply elem_of_cons. right. apply IH.
    + rewrite !elem_of_cons. auto.
Qed.

(** The loop writes one row per accepted row until the limit is reached. *)
Lemma etl_for_count dataset st :
  etl_inv st →
  Z.of_nat (length (db (etl_for zipHash dataset st)))
  = Z.min (row_count st
           + Z.of_nat (length (List.filter (accepted zipHash) dataset)))
          row_limit.
Proof.
  revert st. induction dataset as [|r ds IH]; intros st Hinv; simpl.
  - destruct Hinv. lia.
  - pose proof (etl_body_inv r st Hinv) as (_ & _ & Hcont).
    destruct (accepted zipHash r) eqn:Hacc.
    + destruct (etl_body_accepted r st Hacc) as (geo & _ & Hbody).
      rewrite Hbody in *. simpl in *.
      destruct (Z.leb_spec row_limit (row_count st + 1)).
      * simpl. rewrite length_app. simpl. destruct Hinv. lia.
      * rewrite IH by auto. simpl. lia.
    + apply accepted_false in Hacc. rewrite (etl_body_rejected _ _ Hacc).
      apply IH, Hinv.
Qed.

End EtlFacts.

Lemma etl_init_inv : etl_inv etl_init.
Proof. unfold etl_inv, etl_init, row_limit. simpl. lia. Qed.

Lemma normalize_zip_short region :
  (String.length region < 5)%nat → normalize_zip region = "0" +:+ region.
Proof.
  intros H. unfold normalize_zip.
  destruct (Z.ltb_spec (Z.of_nat (String.length region)) 5); [done | lia].
Qed.

Lemma normalize_zip_long region :
  (5 ≤ String.length region)%nat → normalize_zip region = region.
Proof.
  intros H. unfold normalize_zip.
  destruct (Z.ltb_spec (Z.of_nat (String.length region)) 5); [lia | done].
Qed.

(** Sample data: two geo entries and four dataset rows. *)
Definition sample_date : datetime :=
  {| year := 2023; month := 1; day := 31; hour := 0; minute := 0;
     second := 0; microsecond := 0 |}.

Definition sample_geo : gmap string Geo :=
  <["01012" := {| city := "Chesterfield"; county := "Hampshire";
                  state := "MA" |}]>
  (<["07302" := {| city := "Jersey City"; county := "Hudson";
                   state := "NJ" |}]> ∅).

Definition sample_row (ty : Z) (region : string) (r : option float) : Row :=
  {| RegionType := ty; Region := region; HomeType := 0; Date := sample_date;
     RentSmoothed := r; RentSmoothedAdjusted := None |}.

Definition sample_dataset : list Row :=
  [ sample_row 0 "1012" (Some 1500%float);
    sample_row 3 "1012" (Some 1600%float);
    sample_row 0 "07302" None;
    sample_row 0 "99999" (Some 1700%float);
    sample_row 0 "07302" (Some 2900%float) ].


(** Only one zero is ever added: a shorter Region stays short of 5
    characters, and its row is stored only if the geo table has that key. *)
Example normalize_zip_three : normalize_zip "501" = "0501".
Proof. reflexivity. Qed.

(** The sample geo table satisfies the data model's key invariant. *)
Lemma sample_geo_keys_5 : geo_keys_5 sample_geo.
Proof.
  unfold geo_keys_5, sample_geo.
  apply map_Forall_insert_2; [reflexivity|].
  apply map_Forall_insert_2; [reflexivity|].
  apply map_Forall_empty.
Qed.

(** C3: a row whose region type is not 0, or whose smoothed rent is null, or
    whose normalized zip is not in the geo table, is skipped: the loop body
    leaves the table and the counter as they are and goes on to the next row,
    and the load (its final table and every state it goes through) is the
    load of the dataset without that row. *)
Theorem etl_skips_rejected_row zipHash row :
  rejected zipHash row →
  (∀ st, etl_body zipHash row st = (st, Continue))
  ∧ (∀ pre post,
       etl zipHash (pre ++ row :: post) = etl zipHash (pre ++ post))
  ∧ (∀ pre post s,
       s ∈ etl_trace zipHash (pre ++ row :: post) etl_init
       ↔ s ∈ etl_trace zipHash (pre ++ post) etl_init).
Proof.
  intros Hrej. split_and!.
  - intros st. by apply etl_body_rejected.
  - intros pre post. unfold etl. by rewrite etl_for_drop_rejected.
  - intros pre post s. by apply etl_trace_drop_rejected.
Qed.

Lemma etl_skips_rejected_row_witness :
  rejected sample_geo (sample_row 3 "1012" (Some 1600%float))
  ∧ rejected sample_geo (sample_row 0 "07302" None)
  ∧ rejected sample_geo (sample_row 0 "99999" (Some 1700%float))
  ∧ (∀ st, etl_body sample_geo (sample_row 3 "1012" (Some 1600%float)) st
           = (st, Continue)).
Proof.
  assert (H1 : rejected sample_geo (sample_row 3 "1012" (Some 1600%float))).
  { left. simpl. discriminate. }
  split_and!.
  - exact H1.
  - right. left. reflexivity.
  - right. right. reflexivity.
  - exact (proj1 (etl_skips_rejected_row sample_geo _ H1)).
Defined.

(** C4: whatever the dataset, the table holds at most 10,000 rows in every
    state the load goes through and at its end; the load writes one row per
    accepted row and stops at the 10,000th. *)
Theorem etl_at_most_10000_rows zipHash dataset :
  Forall (λ s, row_count s = Z.of_nat (length (db s))
               ∧ (Z.of_nat (length (db s)) ≤ 10000)%Z)
         (etl_trace zipHash dataset etl_init)
  ∧ etl_for zipHash dataset etl_init ∈ etl_trace zipHash dataset etl_init
  ∧ (Z.of_nat (length (etl zipHash dataset)) ≤ 10000)%Z
  ∧ Z.of_nat (length (etl zipHash dataset))
    = Z.min (Z.of_nat (length (List.filter (accepted zipHash) dataset))) 10000.
Proof.
  pose proof (etl_for_count zipHash dataset etl_init etl_init_inv) as Hcount.
  change row_limit with 10000%Z in Hcount. simpl in Hcount.
  split_and!.
  - apply (etl_trace_bound zipHash dataset etl_init etl_init_inv).
  - apply etl_for_in_trace.
  - unfold etl. lia.
  - unfold etl. lia.
Qed.

End ETL.

(** ** Sessions, tools and the orchestration loop (source lines 246-386) *)

Module Agent.
Import PyDatetime.

(** The values a model puts in a tool call's arguments. *)
#[local] Unset Elimination Schemes.
Inductive Val :=
| VNull
| VBool (b : bool)
| VInt (z : Z)
| VFloat (f : float)
| VStr (s : string)
| VList (l : list Val).
#[local] Set Elimination Schemes.

Record ToolCall := {
  tc_name : string;
  tc_args : gmap string Val;
  tc_id : string
}.

Inductive Message :=
| SystemMessage (content : string)
| HumanMessage (content : string)
| AIMessage (content : string) (tool_calls : list ToolCall)
| ToolMessage (content : string) (tool_call_id : string).

(** One streamed fragment of the model's response.  Fragments add up with
    [+]: the texts are concatenated and the tool calls collected in order
    (a fragment is taken to carry whole tool calls). *)
Record AIMessageChunk := {
  chunk_content : string;
  chunk_tool_calls : list ToolCall
}.

Definition add_chunk (a b : AIMessageChunk) : AIMessageChunk :=
  {| chunk_content := chunk_content a +:+ chunk_content b;
     chunk_tool_calls := (chunk_tool_calls a ++ chunk_tool_calls b)%list |}.

Definition chunk_message (c : AIMessageChunk) : Message :=
  AIMessage (chunk_content c) (chunk_tool_calls c).

Definition msg_content (m : Message) : string :=
  match m with
  | SystemMessage c | HumanMessage c | AIMessage c _ | ToolMessage c _ => c
  end.

Definition is_tool_message (m : Message) : bool :=
  match m with ToolMessage _ _ => true | _ => false end.

(** What a tool invocation comes back with. *)
Inductive Result :=
| Ok (output : string)
| Raise (exn : string).

(** The input dictionary of the chain: its ["messages"] entry and the
    other entries (["language"]). *)
Record ChainInput := {
  messages : list Message;
  others : gmap string string
}.

(** What the caller of [agent] observes, in order. *)
Inductive Event :=
| ModelCall (prompt : list Message)
| Yield (m : Message).

Inductive Outcome :=
| Finished
| Raised (exn : string)
| OutOfFuel.

Definition system_prompt : string :=
"You are an assistant designed to help with business and data analysis.
If the user asks for data you don't have, use the provided tools/functions to interact with a database; follow these steps:

1. First, you should ALWAYS look at the tables in the database to see what you can query. Do NOT skip this step

2. Then query the schema of the most relevant tables

3. Create a syntactically correct SQLite query

4. You MUST use the tool to check/validate your query syntax before executing it. If you get an error while executing a query, rewrite the query and try again

5. Run the query, look at the results, and only use this returned information to construct your final answer

Guidelines:

Do not use the 'multi_tool_use.parallel' tool, call each tool individually.
Unless the user specifies a specific number of examples they wish to obtain, always limit your query to at most 5 results.
You can order the results by a relevant column to return the most interesting examples in the database.
Never query for all the columns from a specific table, only ask for the relevant columns given the question.
DO NOT make any DML statements (INSERT, UPDATE, DELETE, DROP etc.) to the database.".

(** [store]: session id to message history. *)
Definition get_session_history (id : string)
    (store : gmap string (list Message))
    : list Message * gmap string (list Message) :=
  match store !! id with
  | Some h => (h, store)
  | None => ([], <[id := []]> store)
  end.

(** [l[-n:]] *)
Definition last_n {A} (n : nat) (l : list A) : list A :=
  drop (length l - n) l.

(** [{**input, "messages": input["messages"][-10:]}] *)
Definition limit (input : ChainInput) : ChainInput :=
  {| messages := last_n 10 (messages input); others := others input |}.

(** [ChatPromptTemplate]: the system message, then the messages. *)
Definition template (input : ChainInput) : list Message :=
  SystemMessage system_prompt :: messages input.

(** [config]: the only session id the script ever uses. *)
Definition config_session_id : string := "cat".

(** [get_current_datetime]: [now] is what [datetime.now()] reads. *)
Definition get_current_datetime (now : datetime) (current : bool) : string :=
  isoformat now.

(** [res] and [response]: the sum of a stream's fragments. *)
Definition accumulate (c : AIMessageChunk) (cs : list AIMessageChunk)
    : AIMessageChunk :=
  fold_left add_chunk cs c.

(** [''.join(result)], [result] holding the non-empty contents. *)
Definition join_contents (ms : list Message) : string :=
  fold_right String.append ""
    (List.filter (λ c, negb (String.eqb c "")) (map msg_content ms)).

Definition yielded (log : list Event) : list Message :=
  omap (λ e, match e with Yield m => Some m | ModelCall _ => None end) log.

Definition model_calls (log : list Event) : list (list Message) :=
  omap (λ e, match e with ModelCall p => Some p | Yield _ => None end) log.

(** The process state: the world outside the script (database, clock,
    model) and the global [store]. *)
Record State {World : Type} := {
  world : World;
  store : gmap string (list Message)
}.
Arguments State : clear implicits.

(** What a run of [agent] leaves behind. *)
Record Run {World : Type} := {
  outcome : Outcome;
  final : State World;
  events : list Event
}.
Arguments Run : clear implicits.

(** *** The web form (source lines 441-473) *)

(** [str.lower()] on ASCII letters. *)
Definition lower_ascii (c : ascii) : ascii :=
  let n := nat_of_ascii c in
  if (65 <=? n)%nat && (n <=? 90)%nat then ascii_of_nat (n + 32) else c.

Fixpoint lower (s : string) : string :=
  match s with
  | EmptyString => EmptyString
  | String c t => String (lower_ascii c) (lower t)
  end.

Fixpoint starts_with (needle hay : string) : bool :=
  match needle, hay with
  | EmptyString, _ => true
  | String _ _, EmptyString => false
  | String a n', String b h' => Ascii.eqb a b && starts_with n' h'
  end.

(** [needle in hay] *)
Fixpoint contains (needle hay : string) : bool :=
  starts_with needle hay
  || match hay with
     | EmptyString => false
     | String _ t => contains needle t
     end.

(** A Python [int] as a [float]; exact for the integers used here. *)
Fixpoint float_of_positive (p : positive) : float :=
  match p with
  | xH => 1%float
  | xO q => (2 * float_of_positive q)%float
  | xI q => (2 * float_of_positive q + 1)%float
  end.

Definition float_of_Z (z : Z) : float :=
  match z with
  | Z0 => 0%float
  | Zpos p => float_of_positive p
  | Zneg p => (- float_of_positive p)%float
  end.

(** [range(a, b)] *)
Definition range (a b : Z) : list Z :=
  map (λ i, a + Z.of_nat i) (seq 0 (Z.to_nat (b - a))).

(** What the form hands to [plt] and [st.pyplot]. *)
Record Chart := {
  historical_data : list Z;
  forecast_index : list Z;
  forecast : list Z;
  band_low : list float;
  band_high : list float
}.

Inductive Widget :=
| Title (text : string)
| Write (text : string)
| TextInput (label : string)
| Button (label : string)
| Pyplot (chart : Chart).

(** The example data of the submit handler: [0.9] and [1.1] are written
    as the binary64 values Python reads them as. *)
Definition example_chart : Chart :=
  let historical := [1500; 1600; 1650; 1700; 1750; 1800; 1850; 1900; 1950; 2000] in
  let fc := [2100; 2150; 2200; 2250; 2300; 2350; 2400; 2450; 2500; 2550; 2600; 2650] in
  {| historical_data := historical;
     forecast_index :=
       range (Z.of_nat (length historical))
             (Z.of_nat (length historical) + Z.of_nat (length fc));
     forecast := fc;
     band_low := map (λ f, (float_of_Z f * 0x1.ccccccccccccdp-1)%float) fc;
     band_high := map (λ f, (float_of_Z f * 0x1.199999999999ap+0)%float) fc |}.

Definition is_chart (w : Widget) : bool :=
  match w with Pyplot _ => true | _ => false end.

(** The question the script itself asks (lines 410-412). *)
Definition scripted_question : string :=
  "Based on home rents in Newark, NJ for the last 4 years, create a prediction graph for the next 12 months".

(** What one execution of the script under the web framework leaves: the
    final state, how the scripted question's turn ended, how the form's
    turn ended (if it ran) and the widgets shown. *)
Record Pass {World : Type} := {
  pass_final : State World;
  pass_scripted : Outcome;
  pass_form : option Outcome;
  pass_widgets : list Widget
}.
Arguments Pass : clear implicits.

Section Orchestration.
Context {World : Type}.

(** [tool.invoke(args)] *)
Abbreviation Tool := (gmap string Val → World → World * Result).

(** The collaborators: the chat model bound to the tools (it answers a
    prompt with a non-empty stream of fragments), the four tools of the SQL
    toolkit, the clock, the forecasting tool and the validation of the
    arguments of [get_current_datetime]. *)
Variable model : list Message → World → World * (AIMessageChunk * list AIMessageChunk).
Variables sql_tool_0 sql_tool_1 sql_tool_2 sql_tool_3 : Tool.
Variable now : World → datetime.
Variable get_time_series_prediction : Tool.
Variable validate_current : gmap string Val → option bool.

(** The tool made of [get_current_datetime] by [@tool]. *)
Definition get_current_datetime_tool : Tool := λ args w,
  match validate_current args with
  | Some current => (w, Ok (get_current_datetime (now w) current))
  | None => (w, Raise "ValidationError")
  end.

Definition toolsHash : gmap string Tool :=
  <["query_sql_database_tool" := sql_tool_0]>
  (<["info_sql_database_tool" := sql_tool_1]>
  (<["list_sql_database_tool" := sql_tool_2]>
  (<["query_sql_checker_tool" := sql_tool_3]>
  (<["get_current_datetime" := get_current_datetime_tool]>
  (<["get_time_series_prediction" := get_time_series_prediction]> ∅))))).

(** [chain = limit | template | model]; the prompt is returned too. *)
Definition chain (input : ChainInput) (w : World)
    : World * list Message * (AIMessageChunk * list AIMessageChunk) :=
  let prompt := template (limit input) in
  let '(w', chunks) := model prompt w in
  (w', prompt, chunks).

(** [with_history.stream(input, config)], the stream read to its end, as
    [RunnableWithMessageHistory] does with [input_messages_key] alone: the
    session's history is put before the input messages, the chain runs, and
    the input messages and the response are added to the history. *)
Definition with_history_stream (input : ChainInput) (session_id : string)
    (s : State World)
    : State World * list Message * (AIMessageChunk * list AIMessageChunk) :=
  let '(hist, store1) := get_session_history session_id (store s) in
  let '(w', prompt, chunks) :=
    chain {| messages := hist ++ messages input; others := others input |}
          (world s) in
  let response := accumulate chunks.1 chunks.2 in
  ({| world := w';
      store := <[session_id :=
                   hist ++ messages input ++ [chunk_message response]]>
               store1 |},
   prompt, chunks).

(** The [for call in response.tool_calls] loop: the tool messages it
    yields, and the exception that ended it, if any. *)
Fixpoint exec_tools (calls : list ToolCall) (w : World)
    : World * list Message * option string :=
  match calls with
  | [] => (w, [], None)
  | call :: rest =>
    match toolsHash !! tc_name call with
    | Some tool =>
      match tool (tc_args call) w with
      | (w1, Ok output) =>
        let '(w2, tms, e) := exec_tools rest w1 in
        (w2, ToolMessage output (tc_id call) :: tms, e)
      | (w1, Raise exn) => (w1, [], Some exn)
      end
    | None => exec_tools rest w
    end
  end.

(** The [while True] loop of [agent]; [fuel] bounds its passes. *)
Fixpoint agent_loop (fuel : nat) (input : ChainInput) (msgs : list Message)
    (s : State World) (log : list Event) : Run World :=
  match fuel with
  | O => {| outcome := OutOfFuel; final := s; events := log |}
  | S fuel' =>
    let '(s1, prompt, (c, cs)) :=
      with_history_stream {| messages := msgs; others := others input |}
        config_session_id s in
    let log1 := log ++ ModelCall prompt :: map (Yield ∘ chunk_message) (c :: cs) in
    let response := accumulate c cs in
    match chunk_tool_calls response with
    | [] => {| outcome := Finished; final := s1; events := log1 |}
    | calls =>
      let '(w2, tms, e) := exec_tools calls (world s1) in
      let s2 := {| world := w2; store := store s1 |} in
      let log2 := log1 ++ map Yield tms in
      match e with
      | Some exn => {| outcome := Raised exn; final := s2; events := log2 |}
      | None => agent_loop fuel' input tms s2 log2
      end
    end
  end.

Definition agent (fuel : nat) (input : ChainInput) (s : State World)
    : Run World :=
  agent_loop fuel input (messages input) s [].

(** Both definitions of [run] start the agent in the same way. *)
Definition run_agent (fuel : nat) (message : string) (s : State World)
    : Run World :=
  agent fuel {| messages := [HumanMessage message];
                others := {["language" := "English"]} |} s.

(** The second [run]: the joined contents, when the agent returns. *)
Definition run (fuel : nat) (message : string) (s : State World)
    : Run World * option string :=
  let r := run_agent fuel message s in
  (r, match outcome r with
      | Finished => Some (join_contents (yielded (events r)))
      | _ => None
      end).

(** What the submit handler shows once [run] has returned [response]. *)
Definition show_response (user_input response : string) : list Widget :=
  [Write "### Agent's Response:"; Write response]
  ++ (if contains "create a prediction graph" (lower user_input)
      then [Pyplot example_chart] else []).

(** The last part of the script (lines 441-473), which draws the page:
    the state it leaves, whether the agent's turn ended, and the widgets
    shown.  An exception in [run] ends it with what was shown before. *)
Definition streamlit_app (fuel : nat) (clicked : bool) (user_input : string)
    (s : State World) : State World * option Outcome * list Widget :=
  let page := [Title "Business Analysis and Prediction Agent";
               Write "Submit your query to get analysis and predictions.";
               TextInput "Enter your query:"; Button "Submit Query"] in
  if clicked && negb (String.eqb user_input "") then
    let '(r, response) := run fuel user_input s in
    (final r, Some (outcome r),
     page ++ match response with
             | Some text => show_response user_input text
             | None => []
             end)
  else (s, None, page).


(** A pass of the web page executes the script again from its first line:
    [store = {}] (line 246) makes an empty store, the scripted question is
    run (lines 410-412), and if its turn returns the page is drawn (lines
    441-473); otherwise the script stops there.  [w] is the world when the
    pass reaches line 246. *)
Definition script_pass (fuel0 fuel : nat) (clicked : bool)
    (user_input : string) (w : World) : Pass World :=
  let r0 := run_agent fuel0 scripted_question {| world := w; store := ∅ |} in
  match outcome r0 with
  | Finished =>
    let '(s', oc, widgets) :=
      streamlit_app fuel clicked user_input (final r0) in
    {| pass_final := s'; pass_scripted := Finished; pass_form := oc;
       pass_widgets := widgets |}
  | o => {| pass_final := final r0; pass_scripted := o; pass_form := None;
            pass_widgets := [] |}
  end.

(** The tool-call loop in the spec's words: each call in order; a
    registered tool is invoked and its result wrapped as a tool message
    with the call's id, an unregistered one is dropped. *)
Inductive tool_run : World → list ToolCall → list Message → World → Prop :=
| tool_run_nil w : tool_run w [] [] w
| tool_run_invoke w call rest tool w1 output tms w2 :
    toolsHash !! tc_name call = Some tool →
    tool (tc_args call) w = (w1, Ok output) →
    tool_run w1 rest tms w2 →
    tool_run w (call :: rest) (ToolMessage output (tc_id call) :: tms) w2
| tool_run_drop w call rest tms w2 :
    toolsHash !! tc_name call = None →
    tool_run w rest tms w2 →
    tool_run w (call :: rest) tms w2.

Definition registered (call : ToolCall) : bool :=
  negb (ETL.is_None (toolsHash !! tc_name call)).

(** The history a model call at state [s] works from. *)
Definition history_of (s : State World) : list Message :=
  (get_session_history config_session_id (store s)).1.

Lemma exec_tools_tool_run calls w w2 tms :
  exec_tools calls w = (w2, tms, None) ↔ tool_run w calls tms w2.
Proof.
  split.
  - revert w w2 tms.
    induction calls as [|call rest IH]; intros w w2 tms; cbn [exec_tools].
    + intros [= <- <-]. constructor.
    + destruct (toolsHash !! tc_name call) as [tool|] eqn:Hlook.
      * destruct (tool (tc_args call) w) as [w1 [output|exn]] eqn:Hinv;
          [|discriminate].
        destruct (exec_tools rest w1) as [[w3 tms'] e] eqn:Hrest.
        intros [= <- <- ->]. eapply tool_run_invoke; eauto.
      * intros Hrest. apply tool_run_drop; auto.
  - induction 1 as [w | w call rest tool w1 output tms w2 Hlook Hinv _ IH
                      | w call rest tms w2 Hlook _ IH]; cbn [exec_tools].
    + reflexivity.
    + rewrite Hlook, Hinv, IH. reflexivity.
    + rewrite Hlook. exact IH.
Qed.

(** The tool messages answer the registered calls, one each, in order. *)
Lemma tool_run_ids w calls tms w2 :
  tool_run w calls tms w2 →
  Forall2 (λ m call, ∃ output, m = ToolMessage output (tc_id call))
          tms (List.filter registered calls).
Proof.
  induction 1 as [w | w call rest tool w1 output tms w2 Hlook Hinv _ IH
                    | w call rest tms w2 Hlook _ IH]; cbn [List.filter].
  - constructor.
  - unfold registered at 1. rewrite Hlook. cbn. constructor; eauto.
  - unfold registered at 1. rewrite Hlook. cbn. exact IH.
Qed.

Lemma agent_loop_S fuel input msgs s log :
  agent_loop (S fuel) input msgs s log =
  let '(s1, prompt, (c, cs)) :=
    with_history_stream {| messages := msgs; others := others input |}
      config_session_id s in
  let log1 := log ++ ModelCall prompt :: map (Yield ∘ chunk_message) (c :: cs) in
  match chunk_tool_calls (accumulate c cs) with
  | [] => {| outcome := Finished; final := s1; events := log1 |}
  | calls =>
    let '(w2, tms, e) := exec_tools calls (world s1) in
    let s2 := {| world := w2; store := store s1 |} in
    match e with
    | Some exn => {| outcome := Raised exn; final := s2;
                     events := log1 ++ map Yield tms |}
    | None => agent_loop fuel input tms s2 (log1 ++ map Yield tms)
    end
  end.
Proof. reflexivity. Qed.

(** The prompt of a model call: the system prompt, then the last 10 of the
    session's history followed by the new messages. *)
Lemma with_history_stream_prompt input sid s s1 prompt chunks :
  with_history_stream input sid s = (s1, prompt, chunks) →
  prompt = SystemMessage system_prompt
           :: last_n 10 ((get_session_history sid (store s)).1
                         ++ messages input).
Proof.
  unfold with_history_stream, chain.
  destruct (get_session_history sid (store s)) as [hist store1].
  destruct (model _ _) as [w' ch]. simpl. by intros [= _ <- _].
Qed.

(** The store after a model call: only the session's entry changes, and it
    gains the new messages and the response. *)
Lemma with_history_stream_store input sid s s1 prompt chunks :
  with_history_stream input sid s = (s1, prompt, chunks) →
  store s1 = <[sid := (get_session_history sid (store s)).1 ++ messages input
                      ++ [chunk_message (accumulate chunks.1 chunks.2)]]>
             (store s).
Proof.
  unfold with_history_stream, chain, get_session_history.
  destruct (store s !! sid) as [h|] eqn:Hs;
  destruct (model _ _) as [w' ch]; simpl; intros [= <- _ <-]; simpl.
  - reflexivity.
  - by rewrite insert_insert_eq.
Qed.

(** The log only grows. *)
Lemma agent_loop_events_prefix fuel input msgs s log :
  ∃ rest, events (agent_loop fuel input msgs s log) = log ++ rest.
Proof.
  revert msgs s log. induction fuel as [|fuel IH]; intros msgs s log.
  - exists []. simpl. by rewrite app_nil_r.
  - rewrite agent_loop_S.
    destruct (with_history_stream _ _ s) as [[s1 prompt] [c cs]].
    cbv zeta.
    destruct (chunk_tool_calls (accumulate c cs)) as [|call calls].
    + eexists. reflexivity.
    + destruct (exec_tools (call :: calls) (world s1)) as [[w2 tms] [exn|]].
      * eexists. simpl. rewrite <- app_assoc. reflexivity.
      * destruct (IH tms {| world := w2; store := store s1 |}
                    ((log ++ ModelCall prompt
                        :: map (Yield ∘ chunk_message) (c :: cs))
                     ++ map Yield tms)) as [rest ->].
        eexists. rewrite <- !app_assoc. reflexivity.
Qed.

Lemma append_nil_r (a : string) : a +:+ "" = a.
Proof. induction a as [|x a IH]; simpl; [reflexivity | by rewrite IH]. Qed.

Lemma append_assoc (a b c : string) : (a +:+ b) +:+ c = a +:+ (b +:+ c).
Proof. induction a as [|x a IH]; simpl; [reflexivity | by rewrite IH]. Qed.

Lemma starts_with_spec needle hay :
  starts_with needle hay = true ↔ ∃ b, hay = needle +:+ b.
Proof.
  revert hay. induction needle as [|x n IH]; intros hay; simpl.
  - split; [intros _; by exists hay | done].
  - destruct hay as [|y h].
    + split; [done | intros [b Hb]; discriminate].
    + rewrite andb_true_iff, Ascii.eqb_eq, IH. split.
      * intros [-> [b ->]]. by exists b.
      * intros [b [= -> ->]]. eauto.
Qed.

(** [contains] is Python's substring test. *)
Lemma contains_spec needle hay :
  contains needle hay = true ↔ ∃ a b, hay = a +:+ needle +:+ b.
Proof.
  induction hay as [|y h IH]; simpl; rewrite orb_true_iff, starts_with_spec.
  - split.
    + intros [[b Hb] | ?]; [|done]. by exists "", b.
    + intros (a & b & Hab). left. destruct a; [by exists b | discriminate].
  - rewrite IH. split.
    + intros [[b Hb] | (a & b & ->)]; [by exists "", b|].
      by exists (String y a), b.
    + intros ([|x a] & b & Hab); [left; by exists b|].
      right. injection Hab as -> ->. eauto.
Qed.

Lemma accumulate_content c cs :
  chunk_content (accumulate c cs)
  = fold_right String.append "" (map chunk_content (c :: cs)).
Proof.
  unfold accumulate. revert c. induction cs as [|d cs IH]; intros c; simpl.
  - by rewrite append_nil_r.
  - rewrite IH. simpl. by rewrite append_assoc.
Qed.

Lemma join_nonempty (l : list string) :
  fold_right String.append "" (List.filter (λ c, negb (String.eqb c "")) l)
  = fold_right String.append "" l.
Proof.
  induction l as [|a l IH]; simpl; [reflexivity|].
  destruct (String.eqb_spec a "") as [-> | _]; simpl; by rewrite IH.
Qed.

Lemma yielded_app l1 l2 : yielded (l1 ++ l2) = yielded l1 ++ yielded l2.
Proof. apply omap_app. Qed.

Lemma model_calls_app l1 l2 :
  model_calls (l1 ++ l2) = model_calls l1 ++ model_calls l2.
Proof. apply omap_app. Qed.

Lemma yielded_yields (f : AIMessageChunk → Message) cs :
  yielded (map (Yield ∘ f) cs) = map f cs.
Proof. induction cs as [|c cs IH]; simpl; [reflexivity | by f_equal]. Qed.

Lemma model_calls_yields (f : AIMessageChunk → Message) cs :
  model_calls (map (Yield ∘ f) cs) = [].
Proof. induction cs as [|c cs IH]; simpl; [reflexivity | done]. Qed.

Lemma no_tool_message_chunks cs :
  List.filter is_tool_message (map chunk_message cs) = [].
Proof. induction cs as [|c cs IH]; simpl; [reflexivity | done]. Qed.

Lemma join_contents_chunks cs :
  join_contents (map chunk_message cs)
  = fold_right String.append "" (map chunk_content cs).
Proof.
  unfold join_contents. rewrite join_nonempty, map_map. reflexivity.
Qed.

(** A pass of the loop starts with a model call on the system prompt and
    the last 10 of session ["cat"]'s history followed by [msgs]. *)
Lemma agent_loop_first_call fuel input msgs s log :
  ∃ rest, events (agent_loop (S fuel) input msgs s log)
    = log ++ ModelCall (SystemMessage system_prompt
                        :: last_n 10 (history_of s ++ msgs)) :: rest.
Proof.
  rewrite agent_loop_S.
  destruct (with_history_stream _ _ s) as [[s1 prompt] [c cs]] eqn:Hrun.
  apply with_history_stream_prompt in Hrun. simpl in Hrun. cbv zeta.
  fold (history_of s) in Hrun.
  destruct (chunk_tool_calls (accumulate c cs)) as [|call calls].
  - rewrite Hrun. eexists. reflexivity.
  - destruct (exec_tools (call :: calls) (world s1)) as [[w2 tms] [exn|]].
    + rewrite Hrun. eexists. simpl. rewrite <- app_assoc. reflexivity.
    + destruct (agent_loop_events_prefix fuel input tms
                  {| world := w2; store := store s1 |}
                  ((log ++ ModelCall prompt
                      :: map (Yield ∘ chunk_message) (c :: cs))
                   ++ map Yield tms)) as [rest ->].
      rewrite Hrun. eexists. rewrite <- !app_assoc. reflexivity.
Qed.

Lemma exec_tools_unregistered calls w :
  Forall (λ call, registered call = false) calls →
  exec_tools calls w = (w, [], None).
Proof.
  induction 1 as [|call calls Hcall _ IH]; cbn [exec_tools]; [reflexivity|].
  unfold registered in Hcall.
  destruct (toolsHash !! tc_name call); [discriminate | exact IH].
Qed.

Lemma last_n_length {A} (n : nat) (l : list A) :
  length (last_n n l) = Nat.min n (length l).
Proof. unfold last_n. rewrite length_drop. lia. Qed.

Lemma last_n_short {A} (n : nat) (l : list A) :
  (length l ≤ n)%nat → last_n n l = l.
Proof.
  intros H. unfold last_n. replace (length l - n)%nat with 0%nat by lia.
  reflexivity.
Qed.

(** C10: [get_current_datetime] does not look at its argument: at one time
    point the function returns the same ISO timestamp for [True] and for
    [False], and so does the tool made of it for any two argument mappings
    that validate to [True] and to [False]. *)
Theorem get_current_datetime_ignores_current (t : datetime) (w : World)
    (args1 args2 : gmap string Val) :
  get_current_datetime t true = get_current_datetime t false
  ∧ get_current_datetime t true = isoformat t
  ∧ (validate_current args1 = Some true →
     validate_current args2 = Some false →
     get_current_datetime_tool args1 w = get_current_datetime_tool args2 w
     ∧ get_current_datetime_tool args1 w = (w, Ok (isoformat (now w)))).
Proof.
  split_and!; [reflexivity..|].
  intros H1 H2. unfold get_current_datetime_tool. rewrite H1, H2.
  split; reflexivity.
Qed.


Lemma with_history_stream_frame input sid s s1 prompt chunks :
  with_history_stream input sid s = (s1, prompt, chunks) →
  delete sid (store s1) = delete sid (store s)
  ∧ (get_session_history sid (store s1)).1
    = (get_session_history sid (store s)).1 ++ messages input
      ++ [chunk_message (accumulate chunks.1 chunks.2)].
Proof.
  intros Hrun. apply with_history_stream_store in Hrun. rewrite Hrun. split.
  - apply delete_insert_eq.
  - unfold get_session_history at 1. by rewrite lookup_insert_eq.
Qed.



(** C5: when the first accumulated response carries no tool calls, the loop
    ends on that pass: one model call, the response's fragments yielded and
    nothing else (no tool message), and the turn's answer is the response's
    text. *)
Theorem no_tool_calls_ends_turn (fuel : nat) (input : ChainInput)
    (s s1 : State World) (prompt : list Message)
    (c : AIMessageChunk) (cs : list AIMessageChunk) :
  with_history_stream
    {| messages := messages input; others := others input |}
    config_session_id s = (s1, prompt, (c, cs)) →
  chunk_tool_calls (accumulate c cs) = [] →
  agent (S fuel) input s
    = {| outcome := Finished; final := s1;
         events := ModelCall prompt :: map (Yield ∘ chunk_message) (c :: cs) |}
  ∧ model_calls (events (agent (S fuel) input s)) = [prompt]
  ∧ yielded (events (agent (S fuel) input s)) = map chunk_message (c :: cs)
  ∧ List.filter is_tool_message (yielded (events (agent (S fuel) input s))) = []
  ∧ join_contents (yielded (events (agent (S fuel) input s)))
    = chunk_content (accumulate c cs)
  ∧ (∀ message,
       input = {| messages := [HumanMessage message];
                  others := {["language" := "English"]} |} →
       (run (S fuel) message s).2 = Some (chunk_content (accumulate c cs))).
Proof.
  intros Hrun Hcalls.
  assert (Hagent : agent (S fuel) input s
    = {| outcome := Finished; final := s1;
         events := ModelCall prompt :: map (Yield ∘ chunk_message) (c :: cs) |}).
  { unfold agent. rewrite agent_loop_S, Hrun. cbv zeta. rewrite Hcalls.
    reflexivity. }
  assert (Hyield : yielded (events (agent (S fuel) input s))
                   = map chunk_message (c :: cs)).
  { rewrite Hagent. cbn [events]. apply (yielded_yields chunk_message (c :: cs)). }
  assert (Hjoin : join_contents (yielded (events (agent (S fuel) input s)))
                  = chunk_content (accumulate c cs)).
  { rewrite Hyield, join_contents_chunks. symmetry. apply accumulate_content. }
  split_and!.
  - exact Hagent.
  - rewrite Hagent. cbn [events].
    change (ModelCall prompt :: map (Yield ∘ chunk_message) (c :: cs))
      with ([ModelCall prompt] ++ map (Yield ∘ chunk_message) (c :: cs)).
    rewrite model_calls_app, (model_calls_yields chunk_message (c :: cs)).
    reflexivity.
  - exact Hyield.
  - rewrite Hyield. apply no_tool_message_chunks.
  - exact Hjoin.
  - intros message ->. unfold run, run_agent. simpl in *.
    rewrite Hagent in *. simpl. f_equal. exact Hjoin.
Qed.

(** C1: when the accumulated response carries tool calls (and no tool
    raises), the loop goes through the calls in the order the model gave
    them: a call whose name is in [toolsHash] is answered by invoking that
    tool on the call's arguments and wrapping the output as a tool message
    with the call's id, a call whose name is not there is dropped with no
    message and no error; the tool messages are yielded after the
    response's fragments and before the next model call, and they are the
    next pass's message list; two registered calls give exactly two tool
    messages, in the order requested. *)
Theorem tool_calls_answered_in_order (fuel : nat) (input : ChainInput)
    (msgs : list Message) (s s1 : State World) (log : list Event)
    (prompt : list Message) (c : AIMessageChunk) (cs : list AIMessageChunk)
    (w2 : World) (tms : list Message) :
  with_history_stream {| messages := msgs; others := others input |}
    config_session_id s = (s1, prompt, (c, cs)) →
  chunk_tool_calls (accumulate c cs) ≠ [] →
  exec_tools (chunk_tool_calls (accumulate c cs)) (world s1)
    = (w2, tms, None) →
  let calls := chunk_tool_calls (accumulate c cs) in
  let s2 := {| world := w2; store := store s1 |} in
  let log2 := log ++ ModelCall prompt
                  :: map (Yield ∘ chunk_message) (c :: cs) ++ map Yield tms in
  tool_run (world s1) calls tms w2
  ∧ Forall2 (λ m call, ∃ output, m = ToolMessage output (tc_id call))
            tms (List.filter registered calls)
  ∧ agent_loop (S fuel) input msgs s log = agent_loop fuel input tms s2 log2
  ∧ (∃ rest, events (agent_loop (S fuel) input msgs s log) = log2 ++ rest
       ∧ match fuel with
         | O => rest = []
         | S _ => ∃ rest',
             rest = ModelCall (SystemMessage system_prompt
                               :: last_n 10 (history_of s2 ++ tms)) :: rest'
         end)
  ∧ (∀ c1 c2, calls = [c1; c2] →
       registered c1 = true → registered c2 = true →
       ∃ o1 o2, tms = [ToolMessage o1 (tc_id c1); ToolMessage o2 (tc_id c2)])
  ∧ (∀ dropped w, Forall (λ call, registered call = false) dropped →
       exec_tools dropped w = (w, [], None)).
Proof.
  intros Hrun Hcalls Hexec. cbv zeta.
  pose proof (proj1 (exec_tools_tool_run _ _ _ _) Hexec) as Htr.
  pose proof (tool_run_ids _ _ _ _ Htr) as Hids.
  assert (Hstep : agent_loop (S fuel) input msgs s log
    = agent_loop fuel input tms {| world := w2; store := store s1 |}
        (log ++ ModelCall prompt
             :: map (Yield ∘ chunk_message) (c :: cs) ++ map Yield tms)).
  { rewrite agent_loop_S, Hrun. cbv zeta.
    destruct (chunk_tool_calls (accumulate c cs)) as [|call calls] eqn:Hc;
      [done|].
    rewrite Hexec. f_equal. rewrite <- app_assoc. reflexivity. }
  split_and!.
  - exact Htr.
  - exact Hids.
  - exact Hstep.
  - rewrite Hstep. destruct fuel as [|fuel].
    + exists []. simpl. by rewrite app_nil_r.
    + destruct (agent_loop_first_call fuel input tms
                  {| world := w2; store := store s1 |}
                  (log ++ ModelCall prompt
                     :: map (Yield ∘ chunk_message) (c :: cs) ++ map Yield tms))
        as [rest' ->].
      eexists. split; [reflexivity | eauto].
  - intros c1 c2 Heq Hr1 Hr2. rewrite Heq in Hids. simpl in Hids.
    rewrite Hr1, Hr2 in Hids.
    inversion Hids as [|m1 ? l1 ? [o1 ->] Hids1]; subst.
    inversion Hids1 as [|m2 ? l2 ? [o2 ->] Hids2]; subst.
    inversion Hids2; subst. eauto.
  - intros dropped w. apply exec_tools_unregistered.
Qed.

(** *** Further properties of the session store, the registry and the loop *)

Lemma last_n_suffix {A} (n : nat) (l : list A) :
  l = take (length l - n) l ++ last_n n l.
Proof. unfold last_n. by rewrite take_drop. Qed.

Lemma model_calls_map_yield ms : model_calls (map Yield ms) = [].
Proof. induction ms as [|m ms IH]; simpl; [reflexivity | done]. Qed.

Lemma yielded_map_yield ms : yielded (map Yield ms) = ms.
Proof. induction ms as [|m ms IH]; simpl; [reflexivity | by f_equal]. Qed.

Lemma with_history_stream_model input sid s s1 prompt chunks :
  with_history_stream input sid s = (s1, prompt, chunks) →
  chunks = (model prompt (world s)).2 ∧ world s1 = (model prompt (world s)).1.
Proof.
  unfold with_history_stream, chain.
  destruct (get_session_history sid (store s)) as [hist store1].
  destruct (model _ _) as [w' ch] eqn:Hm. simpl.
  intros [= <- <- <-]. rewrite Hm. auto.
Qed.

(** X6: a session is created on first use and then kept: the history
    returned is the one stored under the id afterwards (empty for an id not
    seen before), an existing entry leaves the store as it is, no other
    entry changes, and asking again gives the same history and store. *)
Theorem get_session_history_first_use (sid : string)
    (st : gmap string (list Message)) :
  (get_session_history sid st).2 !! sid = Some (get_session_history sid st).1
  ∧ (get_session_history sid st).1 = default [] (st !! sid)
  ∧ (is_Some (st !! sid) → (get_session_history sid st).2 = st)
  ∧ (∀ k, k ≠ sid → (get_session_history sid st).2 !! k = st !! k)
  ∧ get_session_history sid (get_session_history sid st).2
    = get_session_history sid st.
Proof.
  unfold get_session_history.
  destruct (st !! sid) as [h|] eqn:Hst; simpl.
  - rewrite Hst. split_and!; done.
  - rewrite lookup_insert_eq. split_and!.
    + reflexivity.
    + reflexivity.
    + intros [h Hh]. discriminate.
    + intros k Hk. by apply lookup_insert_ne.
    + reflexivity.
Qed.

Lemma get_session_history_first_use_witness :
  (get_session_history "cat" ({["dog" := [HumanMessage "woof"]]})).2 !! "dog"
  = ({["dog" := [HumanMessage "woof"]]} : gmap string (list Message)) !! "dog".
Proof.
  refine (proj1 (proj2 (proj2 (proj2
    (get_session_history_first_use "cat"
       {["dog" := [HumanMessage "woof"]]}))))
    "dog" _).
  discriminate.
Defined.

(** X7: [limit] keeps the other entries of the input and replaces the
    messages by a suffix of them, of 10 messages or of all of them when
    there are fewer; limiting twice is limiting once. *)
Theorem limit_keeps_suffix (input : ChainInput) :
  (∃ dropped, messages input = dropped ++ messages (limit input))
  ∧ length (messages (limit input)) = Nat.min 10 (length (messages input))
  ∧ others (limit input) = others input
  ∧ limit (limit input) = limit input
  ∧ ((length (messages input) ≤ 10)%nat →
     messages (limit input) = messages input).
Proof.
  split_and!.
  - eexists. apply (last_n_suffix 10).
  - apply last_n_length.
  - reflexivity.
  - unfold limit. simpl. f_equal. apply last_n_short.
    rewrite last_n_length. lia.
  - intros Hle. by apply last_n_short.
Qed.

Lemma limit_keeps_suffix_witness :
  messages (limit {| messages := [HumanMessage "a"; HumanMessage "b"];
                     others := ∅ |})
  = [HumanMessage "a"; HumanMessage "b"].
Proof.
  refine (proj2 (proj2 (proj2 (proj2
    (limit_keeps_suffix {| messages := [HumanMessage "a"; HumanMessage "b"];
                           others := ∅ |})))) _).
  simpl. lia.
Defined.


(** The calls before a raising one are answered, the later ones never
    invoked. *)
Lemma exec_tools_raise calls w w2 tms exn :
  exec_tools calls w = (w2, tms, Some exn) →
  ∃ pre call post tool w0,
    calls = pre ++ call :: post
    ∧ tool_run w pre tms w0
    ∧ toolsHash !! tc_name call = Some tool
    ∧ tool (tc_args call) w0 = (w2, Raise exn).
Proof.
  revert w w2 tms.
  induction calls as [|call rest IH]; intros w w2 tms; cbn [exec_tools];
    [discriminate|].
  destruct (toolsHash !! tc_name call) as [tool|] eqn:Hlook.
  - destruct (tool (tc_args call) w) as [w1 [output|e]] eqn:Hinv.
    + destruct (exec_tools rest w1) as [[w3 tms'] e'] eqn:Hrest.
      intros [= <- <- ->].
      destruct (IH _ _ _ Hrest) as (pre & c' & post & t' & w0 & -> & Hpre & ? & ?).
      exists (call :: pre), c', post, t', w0. split_and!; try done.
      eapply tool_run_invoke; eauto.
    + intros [= <- <- <-].
      exists [], call, rest, tool, w. split_and!; try done. constructor.
  - intros Hrest.
    destruct (IH _ _ _ Hrest) as (pre & c' & post & t' & w0 & -> & Hpre & ? & ?).
    exists (call :: pre), c', post, t', w0. split_and!; try done.
    by apply tool_run_drop.
Qed.

Lemma fold_right_append_app (l1 l2 : list string) :
  fold_right String.append "" (l1 ++ l2)
  = fold_right String.append "" l1 +:+ fold_right String.append "" l2.
Proof.
  induction l1 as [|a l1 IH]; simpl; [reflexivity|].
  by rewrite IH, append_assoc.
Qed.

(** X9: when a tool raises, the turn ends with that exception: the tool
    messages of the calls before it have been yielded, the failing call and
    the calls after it give none, no further model call is made, and the
    session history holds the response but none of the tool messages. *)
Theorem tool_exception_ends_turn (fuel : nat) (input : ChainInput)
    (msgs : list Message) (s s1 : State World) (log : list Event)
    (prompt : list Message) (c : AIMessageChunk) (cs : list AIMessageChunk)
    (w2 : World) (tms : list Message) (exn : string) :
  with_history_stream {| messages := msgs; others := others input |}
    config_session_id s = (s1, prompt, (c, cs)) →
  exec_tools (chunk_tool_calls (accumulate c cs)) (world s1)
    = (w2, tms, Some exn) →
  agent_loop (S fuel) input msgs s log
    = {| outcome := Raised exn;
         final := {| world := w2; store := store s1 |};
         events := log ++ ModelCall prompt
                       :: map (Yield ∘ chunk_message) (c :: cs)
                       ++ map Yield tms |}
  ∧ (∃ pre call post tool w0,
       chunk_tool_calls (accumulate c cs) = pre ++ call :: post
       ∧ tool_run (world s1) pre tms w0
       ∧ toolsHash !! tc_name call = Some tool
       ∧ tool (tc_args call) w0 = (w2, Raise exn))
  ∧ history_of {| world := w2; store := store s1 |}
    = history_of s ++ msgs ++ [chunk_message (accumulate c cs)].
Proof.
  intros Hrun Hexec. split_and!.
  - rewrite agent_loop_S, Hrun. cbv zeta.
    destruct (chunk_tool_calls (accumulate c cs)) as [|call calls] eqn:Hc;
      [discriminate|].
    rewrite Hexec. f_equal. by rewrite <- app_assoc.
  - by apply exec_tools_raise.
  - apply with_history_stream_frame in Hrun as [_ Hhist]. exact Hhist.
Qed.

(** X10: the loop has no bound of its own: with a model whose every
    response asks for tools, and tools that do not raise, the turn never
    ends; each pass makes one more model call. *)
Theorem agent_never_finishes (fuel : nat) (input : ChainInput)
    (msgs : list Message) (s : State World) (log : list Event) :
  (∀ p w, chunk_tool_calls
            (accumulate (model p w).2.1 (model p w).2.2) ≠ []) →
  (∀ p w w1, (exec_tools
                (chunk_tool_calls
                   (accumulate (model p w).2.1 (model p w).2.2)) w1).2
             = None) →
  outcome (agent_loop fuel input msgs s log) = OutOfFuel
  ∧ length (model_calls (events (agent_loop fuel input msgs s log)))
    = (length (model_calls log) + fuel)%nat.
Proof.
  intros Hasks Hok. revert msgs s log.
  induction fuel as [|fuel IH]; intros msgs s log.
  - simpl. split; [reflexivity | lia].
  - rewrite agent_loop_S.
    destruct (with_history_stream _ _ s) as [[s1 prompt] [c cs]] eqn:Hrun.
    apply with_history_stream_model in Hrun as [Hchunks _]. cbv zeta.
    specialize (Hasks prompt (world s)).
    specialize (Hok prompt (world s) (world s1)).
    rewrite <- Hchunks in Hasks, Hok. simpl in Hasks, Hok.
    destruct (chunk_tool_calls (accumulate c cs)) as [|call calls]; [done|].
    destruct (exec_tools (call :: calls) (world s1)) as [[w2 tms] e].
    simpl in Hok. subst e.
    destruct (IH tms {| world := w2; store := store s1 |}
                ((log ++ ModelCall prompt
                    :: map (Yield ∘ chunk_message) (c :: cs))
                 ++ map Yield tms)) as [Hout Hlen].
    split; [exact Hout|]. rewrite Hlen.
    change (ModelCall prompt :: map (Yield ∘ chunk_message) (c :: cs))
      with ([ModelCall prompt] ++ map (Yield ∘ chunk_message) (c :: cs)).
    rewrite !model_calls_app, (model_calls_yields chunk_message (c :: cs)),
      model_calls_map_yield, !length_app. simpl. lia.
Qed.

(** X13: in a turn of two passes (a response with tool calls, then one
    without) the text [run] returns is the first response's text, then the
    contents of the tool messages, then the second response's text; the
    session history gains the user's message, the first response, the tool
    messages and the second response, in that order. *)
Theorem tool_outputs_in_answer (fuel : nat) (message : string)
    (s s1 s3 : State World) (p1 p2 : list Message)
    (c1 c2 : AIMessageChunk) (cs1 cs2 : list AIMessageChunk)
    (w2 : World) (tms : list Message) :
  with_history_stream
    {| messages := [HumanMessage message];
       others := {["language" := "English"]} |}
    config_session_id s = (s1, p1, (c1, cs1)) →
  chunk_tool_calls (accumulate c1 cs1) ≠ [] →
  exec_tools (chunk_tool_calls (accumulate c1 cs1)) (world s1)
    = (w2, tms, None) →
  with_history_stream
    {| messages := tms; others := {["language" := "English"]} |}
    config_session_id {| world := w2; store := store s1 |}
    = (s3, p2, (c2, cs2)) →
  chunk_tool_calls (accumulate c2 cs2) = [] →
  (run (S (S fuel)) message s).2
    = Some (chunk_content (accumulate c1 cs1)
            +:+ fold_right String.append "" (map msg_content tms)
            +:+ chunk_content (accumulate c2 cs2))
  ∧ outcome (run (S (S fuel)) message s).1 = Finished
  ∧ final (run (S (S fuel)) message s).1 = s3
  ∧ model_calls (events (run (S (S fuel)) message s).1) = [p1; p2]
  ∧ history_of s3
    = history_of s ++ [HumanMessage message; chunk_message (accumulate c1 cs1)]
      ++ tms ++ [chunk_message (accumulate c2 cs2)].
Proof.
  intros Hrun1 Hcalls1 Hexec Hrun2 Hcalls2.
  assert (Hagent : run_agent (S (S fuel)) message s
    = {| outcome := Finished; final := s3;
         events := ([ModelCall p1] ++ map (Yield ∘ chunk_message) (c1 :: cs1))
                   ++ map Yield tms
                   ++ [ModelCall p2] ++ map (Yield ∘ chunk_message) (c2 :: cs2) |}).
  { unfold run_agent, agent. cbn [messages].
    rewrite agent_loop_S. cbn [others]. rewrite Hrun1. cbv zeta.
    destruct (chunk_tool_calls (accumulate c1 cs1)) as [|call calls] eqn:Hc;
      [done|].
    rewrite Hexec, agent_loop_S. cbn [others]. rewrite Hrun2. cbv zeta.
    rewrite Hcalls2. f_equal. simpl. rewrite <- !app_assoc. reflexivity. }
  unfold run. rewrite Hagent. cbn [outcome final events fst snd].
  split_and!.
  - f_equal. unfold join_contents.
    rewrite !yielded_app, !(yielded_yields chunk_message), yielded_map_yield.
    simpl yielded. rewrite !app_nil_l.
    rewrite join_nonempty, !map_app, !fold_right_append_app.
    rewrite !map_map.
    change (map (λ x, msg_content (chunk_message x)))
      with (map chunk_content).
    by rewrite <- !accumulate_content.
  - reflexivity.
  - reflexivity.
  - rewrite !model_calls_app, !(model_calls_yields chunk_message),
      model_calls_map_yield. reflexivity.
  - apply with_history_stream_frame in Hrun1 as [_ Hh1].
    apply with_history_stream_frame in Hrun2 as [_ Hh2].
    unfold history_of. simpl in *. rewrite Hh2, Hh1.
    rewrite <- !app_assoc. reflexivity.
Qed.

(** *** One history per execution of the script *)

Definition is_finished (o : Outcome) : bool :=
  match o with Finished => true | _ => false end.

Lemma is_finished_true o : is_finished o = true ↔ o = Finished.
Proof. destruct o; simpl; split; congruence. Qed.





Lemma streamlit_app_charts fuel clicked user_input s :
  List.filter is_chart (streamlit_app fuel clicked user_input s).2
  = if clicked && is_finished (outcome (run_agent fuel user_input s))
       && contains "create a prediction graph" (lower user_input)
    then [Pyplot example_chart] else [].
Proof.
  unfold streamlit_app, run. destruct clicked; simpl; [|reflexivity].
  destruct (String.eqb_spec user_input "") as [-> | Hne]; simpl.
  - by rewrite andb_false_r.
  - destruct (outcome (run_agent fuel user_input s)); simpl;
      [|reflexivity..].
    unfold show_response. simpl. destruct (contains _ _); reflexivity.
Qed.

Lemma chart_in_filter (widgets : list Widget) chart :
  Pyplot chart ∈ widgets ↔ Pyplot chart ∈ List.filter is_chart widgets.
Proof. rewrite !list_elem_of_In, filter_In. simpl. tauto. Qed.

Lemma script_pass_widgets fuel0 fuel clicked user_input w :
  pass_widgets (script_pass fuel0 fuel clicked user_input w)
  = if is_finished (outcome (run_agent fuel0 scripted_question
                               {| world := w; store := ∅ |}))
    then (streamlit_app fuel clicked user_input
            (final (run_agent fuel0 scripted_question
                      {| world := w; store := ∅ |}))).2
    else [].
Proof.
  unfold script_pass.
  destruct (outcome (run_agent fuel0 scripted_question _)); simpl;
    [|reflexivity..].
  by destruct (streamlit_app _ _ _ _) as [[s' oc] widgets].
Qed.


(** C9 (as amended): the chart is shown exactly when the submit button was
    pressed, the agent's turn on the query returned, and the lower-cased
    query contains "create a prediction graph" (in a pass of the page: when
    moreover the scripted question's turn returned, so that the page is
    drawn); the chart shown is always the same one, [example_chart],
    whatever the response and whatever the forecasting tool returned. *)
Theorem chart_iff_submitted_and_returned (fuel0 fuel : nat) (clicked : bool)
    (user_input : string) (s : State World) (w : World) :
  let phrase :=
    ∃ a b, lower user_input = a +:+ "create a prediction graph" +:+ b in
  let r0 := run_agent fuel0 scripted_question {| world := w; store := ∅ |} in
  ((∃ chart, Pyplot chart ∈ (streamlit_app fuel clicked user_input s).2)
   ↔ clicked = true
     ∧ outcome (run_agent fuel user_input s) = Finished ∧ phrase)
  ∧ (∀ chart, Pyplot chart ∈ (streamlit_app fuel clicked user_input s).2 →
       chart = example_chart)
  ∧ ((∃ chart, Pyplot chart
                 ∈ pass_widgets (script_pass fuel0 fuel clicked user_input w))
     ↔ outcome r0 = Finished ∧ clicked = true
       ∧ outcome (run_agent fuel user_input (final r0)) = Finished ∧ phrase)
  ∧ (∀ chart, Pyplot chart
                ∈ pass_widgets (script_pass fuel0 fuel clicked user_input w) →
       chart = example_chart).
Proof.
  cbv zeta.
  assert (Hform : ∀ st,
    ((∃ chart, Pyplot chart ∈ (streamlit_app fuel clicked user_input st).2)
     ↔ clicked = true
       ∧ outcome (run_agent fuel user_input st) = Finished
       ∧ ∃ a b, lower user_input = a +:+ "create a prediction graph" +:+ b)
    ∧ (∀ chart, Pyplot chart ∈ (streamlit_app fuel clicked user_input st).2 →
         chart = example_chart)).
  { intros st.
    pose proof (streamlit_app_charts fuel clicked user_input st) as Hcharts.
    rewrite <- contains_spec, <- is_finished_true. split.
    - split.
      + intros [chart Hc]. apply chart_in_filter in Hc. rewrite Hcharts in Hc.
        destruct clicked, (is_finished _), (contains _ _); simpl in Hc;
          try (by apply elem_of_nil in Hc). auto.
      + intros (-> & Hfin & Hyes). exists example_chart.
        apply chart_in_filter. rewrite Hcharts, Hfin, Hyes. simpl.
        apply elem_of_cons. by left.
    - intros chart Hc. apply chart_in_filter in Hc. rewrite Hcharts in Hc.
      destruct (_ && _ && _).
      + apply list_elem_of_singleton in Hc. by injection Hc.
      + by apply elem_of_nil in Hc. }
  destruct (Hform s) as [Hiff Hconst].
  split_and!; [exact Hiff | exact Hconst | |].
  - rewrite script_pass_widgets, <- (is_finished_true (outcome (run_agent fuel0 _ _))).
    destruct (is_finished (outcome (run_agent fuel0 scripted_question _))).
    + destruct (Hform (final (run_agent fuel0 scripted_question
                                {| world := w; store := ∅ |}))) as [Hiff' _].
      rewrite Hiff'. tauto.
    + split; [intros [chart Hc]; by apply elem_of_nil in Hc|].
      intros [? _]. discriminate.
  - intros chart. rewrite script_pass_widgets.
    destruct (is_finished (outcome (run_agent fuel0 scripted_question _))).
    + apply (Hform (final (run_agent fuel0 scripted_question
                             {| world := w; store := ∅ |}))).
    + intros Hc. by apply elem_of_nil in Hc.
Qed.

End Orchestration.

End Agent.

(** ** A scripted model and sample runs *)

Module Demo.
Import PyDatetime Agent.

(** The world is the number of model calls made so far. *)
Definition time_call : ToolCall :=
  {| tc_name := "get_current_datetime";
     tc_args := {["current" := VBool true]}; tc_id := "call_1" |}.

Definition unknown_call : ToolCall :=
  {| tc_name := "multi_tool_use.parallel"; tc_args := ∅; tc_id := "call_2" |}.

Definition list_call : ToolCall :=
  {| tc_name := "list_sql_database_tool"; tc_args := ∅; tc_id := "call_3" |}.

(** The first call asks for three tools (one of them unknown) in two
    fragments; every later call answers in two fragments of text. *)
Definition demo_model (prompt : list Message) (w : nat)
    : nat * (AIMessageChunk * list AIMessageChunk) :=
  match w with
  | O => (1%nat,
          ({| chunk_content := ""; chunk_tool_calls := [time_call] |},
           [{| chunk_content := "";
               chunk_tool_calls := [unknown_call; list_call] |}]))
  | S _ => (S w,
            ({| chunk_content := "It is "; chunk_tool_calls := [] |},
             [{| chunk_content := "noon."; chunk_tool_calls := [] |}]))
  end.

Definition demo_sql (answer : string) (args : gmap string Val) (w : nat)
    : nat * Result :=
  (w, Ok answer).

Definition demo_now (w : nat) : datetime :=
  {| year := 2024; month := 3; day := 7; hour := 12; minute := 0;
     second := 0; microsecond := 0 |}.

Definition demo_validate (args : gmap string Val) : option bool :=
  match args !! "current" with
  | Some (VBool b) => Some b
  | _ => None
  end.

Definition demo_forecast (args : gmap string Val) (w : nat) : nat * Result :=
  (w, Ok "[2100.0, 2150.0]").

Definition demo_input : ChainInput :=
  {| messages := [HumanMessage "What time is it?"];
     others := {["language" := "English"]} |}.

Definition demo_state (w : nat) (st : gmap string (list Message))
    : State nat :=
  {| world := w; store := st |}.

Definition demo_step (w : nat) (st : gmap string (list Message))
    (input : ChainInput) :=
  with_history_stream demo_model input config_session_id (demo_state w st).

Definition demo_agent (fuel : nat) (w : nat) : Run nat :=
  agent demo_model (demo_sql "query") (demo_sql "info") (demo_sql "rentals")
    (demo_sql "ok") demo_now demo_forecast demo_validate fuel demo_input
    (demo_state w ∅).


Example demo_agent_yields :
  yielded (events (demo_agent 5 0)) =
  [ AIMessage "" [time_call];
    AIMessage "" [unknown_call; list_call];
    ToolMessage "2024-03-07T12:00:00" "call_1";
    ToolMessage "rentals" "call_3";
    AIMessage "It is " [];
    AIMessage "noon." [] ]
  ∧ outcome (demo_agent 5 0) = Finished
  ∧ length (model_calls (events (demo_agent 5 0))) = 2%nat
  ∧ store (final (demo_agent 5 0)) !! "cat" =
    Some [ HumanMessage "What time is it?";
           AIMessage "" [time_call; unknown_call; list_call];
           ToolMessage "2024-03-07T12:00:00" "call_1";
           ToolMessage "rentals" "call_3";
           AIMessage "It is noon." [] ].
Proof. vm_compute. auto. Qed.

Example demo_agent_out_of_fuel : outcome (demo_agent 1 0) = OutOfFuel.
Proof. reflexivity. Qed.

Lemma tool_calls_answered_in_order_witness :
  tool_run (demo_sql "query") (demo_sql "info") (demo_sql "rentals")
    (demo_sql "ok") demo_now demo_forecast demo_validate
    1%nat [time_call; unknown_call; list_call]
    [ToolMessage "2024-03-07T12:00:00" "call_1"; ToolMessage "rentals" "call_3"]
    1%nat.
Proof.
  pose (step := demo_step 0 ∅ demo_input).
  refine (proj1 (tool_calls_answered_in_order demo_model
    (demo_sql "query") (demo_sql "info") (demo_sql "rentals") (demo_sql "ok")
    demo_now demo_forecast demo_validate
    3 demo_input (messages demo_input) (demo_state 0 ∅) step.1.1 []
    step.1.2 step.2.1 step.2.2 1%nat
    [ToolMessage "2024-03-07T12:00:00" "call_1"; ToolMessage "rentals" "call_3"]
    _ _ _)).
  - reflexivity.
  - discriminate.
  - reflexivity.
Defined.

Lemma no_tool_calls_ends_turn_witness :
  (run demo_model (demo_sql "query") (demo_sql "info") (demo_sql "rentals")
     (demo_sql "ok") demo_now demo_forecast demo_validate
     1 "What time is it?" (demo_state 1 ∅)).2 = Some "It is noon.".
Proof.
  pose (step := demo_step 1 ∅ demo_input).
  refine (proj2 (proj2 (proj2 (proj2 (proj2
    (no_tool_calls_ends_turn demo_model
       (demo_sql "query") (demo_sql "info") (demo_sql "rentals")
       (demo_sql "ok") demo_now demo_forecast demo_validate
       0 demo_input (demo_state 1 ∅) step.1.1 step.1.2 step.2.1 step.2.2
       _ _))))) "What time is it?" _).
  - reflexivity.
  - reflexivity.
  - reflexivity.
Defined.


Lemma get_current_datetime_ignores_current_witness :
  get_current_datetime_tool demo_now demo_validate
    {["current" := VBool true]} 7%nat
  = get_current_datetime_tool demo_now demo_validate
    {["current" := VBool false]} 7%nat.
Proof.
  refine (proj1 (proj2 (proj2
    (get_current_datetime_ignores_current demo_now demo_validate
       (demo_now 7%nat) 7%nat {["current" := VBool true]}
       {["current" := VBool false]})) _ _)).
  - reflexivity.
  - reflexivity.
Defined.

(** The handler runs only when the form is submitted: a pass of the page
    without the button shows the page alone. *)
Example no_chart_without_submit :
  List.filter is_chart
    (streamlit_app demo_model (demo_sql "query") (demo_sql "info")
       (demo_sql "rentals") (demo_sql "ok") demo_now demo_forecast
       demo_validate 1 false "create a prediction graph"
       (demo_state 1 ∅)).2 = [].
Proof. reflexivity. Qed.

(** A model whose second tool call has no valid arguments, and a model
    that asks for an unknown tool on every call. *)
Definition bad_time_call : ToolCall :=
  {| tc_name := "get_current_datetime"; tc_args := ∅; tc_id := "call_4" |}.

Definition raising_model (prompt : list Message) (w : nat)
    : nat * (AIMessageChunk * list AIMessageChunk) :=
  (S w, ({| chunk_content := "Checking.";
            chunk_tool_calls := [list_call; bad_time_call; time_call] |}, [])).

Definition stubborn_model (prompt : list Message) (w : nat)
    : nat * (AIMessageChunk * list AIMessageChunk) :=
  (S w, ({| chunk_content := ""; chunk_tool_calls := [unknown_call] |}, [])).

Lemma tool_exception_ends_turn_witness :
  outcome (agent raising_model (demo_sql "query") (demo_sql "info")
             (demo_sql "rentals") (demo_sql "ok") demo_now demo_forecast
             demo_validate 4 demo_input (demo_state 0 ∅))
  = Raised "ValidationError"
  ∧ yielded (events (agent raising_model (demo_sql "query") (demo_sql "info")
             (demo_sql "rentals") (demo_sql "ok") demo_now demo_forecast
             demo_validate 4 demo_input (demo_state 0 ∅)))
    = [ AIMessage "Checking." [list_call; bad_time_call; time_call];
        ToolMessage "rentals" "call_3" ].
Proof.
  pose (step := with_history_stream raising_model demo_input
                  config_session_id (demo_state 0 ∅)).
  assert (Hrun : with_history_stream raising_model
            {| messages := messages demo_input; others := others demo_input |}
            config_session_id (demo_state 0 ∅)
          = (step.1.1, step.1.2, (step.2.1, step.2.2))) by reflexivity.
  assert (Hexec : exec_tools (demo_sql "query") (demo_sql "info")
            (demo_sql "rentals") (demo_sql "ok") demo_now demo_forecast
            demo_validate
            (chunk_tool_calls (accumulate step.2.1 step.2.2))
            (world step.1.1)
          = (1%nat, [ToolMessage "rentals" "call_3"], Some "ValidationError"))
    by reflexivity.
  unfold agent.
  rewrite (proj1 (tool_exception_ends_turn raising_model
    (demo_sql "query") (demo_sql "info") (demo_sql "rentals") (demo_sql "ok")
    demo_now demo_forecast demo_validate 3 demo_input (messages demo_input)
    (demo_state 0 ∅) step.1.1 [] step.1.2 step.2.1 step.2.2 1%nat
    [ToolMessage "rentals" "call_3"] "ValidationError" Hrun Hexec)).
  split; reflexivity.
Defined.

Lemma agent_never_finishes_witness :
  outcome (agent stubborn_model (demo_sql "query") (demo_sql "info")
             (demo_sql "rentals") (demo_sql "ok") demo_now demo_forecast
             demo_validate 7 demo_input (demo_state 0 ∅))
  = OutOfFuel
  ∧ length (model_calls (events (agent stubborn_model (demo_sql "query")
             (demo_sql "info") (demo_sql "rentals") (demo_sql "ok") demo_now
             demo_forecast demo_validate 7 demo_input (demo_state 0 ∅))))
    = 7%nat.
Proof.
  apply (agent_never_finishes stubborn_model (demo_sql "query")
           (demo_sql "info") (demo_sql "rentals") (demo_sql "ok") demo_now
           demo_forecast demo_validate 7 demo_input (messages demo_input)
           (demo_state 0 ∅) []).
  - intros p w. discriminate.
  - intros p w w1. reflexivity.
Defined.

Lemma tool_outputs_in_answer_witness :
  (run demo_model (demo_sql "query") (demo_sql "info") (demo_sql "rentals")
     (demo_sql "ok") demo_now demo_forecast demo_validate
     2 "What time is it?" (demo_state 0 ∅)).2
  = Some "2024-03-07T12:00:00rentalsIt is noon.".
Proof.
  pose (step1 := demo_step 0 ∅ demo_input).
  pose (tms := [ToolMessage "2024-03-07T12:00:00" "call_1";
                ToolMessage "rentals" "call_3"]).
  pose (step2 := demo_step 1 (store step1.1.1)
                   {| messages := tms;
                      others := {["language" := "English"]} |}).
  refine (proj1 (tool_outputs_in_answer demo_model
    (demo_sql "query") (demo_sql "info") (demo_sql "rentals") (demo_sql "ok")
    demo_now demo_forecast demo_validate 0 "What time is it?"
    (demo_state 0 ∅) step1.1.1 step2.1.1 step1.1.2 step2.1.2
    step1.2.1 step2.2.1 step1.2.2 step2.2.2 1%nat tms _ _ _ _ _)).
  - reflexivity.
  - discriminate.
  - reflexivity.
  - reflexivity.
  - reflexivity.
Defined.




(** The query contains the phrase and the button is pressed, but a tool
    raises during the turn: no chart is shown.  Nor is one shown while the
    button is not pressed. *)
Lemma phrase_without_chart :
  contains "create a prediction graph"
    (lower "Please create a prediction graph") = true
  ∧ outcome (run_agent raising_model (demo_sql "query") (demo_sql "info")
               (demo_sql "rentals") (demo_sql "ok") demo_now demo_forecast
               demo_validate 3 "Please create a prediction graph"
               (demo_state 0 ∅))
    = Raised "ValidationError"
  ∧ List.filter is_chart
      (streamlit_app raising_model (demo_sql "query") (demo_sql "info")
         (demo_sql "rentals") (demo_sql "ok") demo_now demo_forecast
         demo_validate 3 true "Please create a prediction graph"
         (demo_state 0 ∅)).2 = []
  ∧ List.filter is_chart
      (streamlit_app demo_model (demo_sql "query") (demo_sql "info")
         (demo_sql "rentals") (demo_sql "ok") demo_now demo_forecast
         demo_validate 3 false "Please create a prediction graph"
         (demo_state 1 ∅)).2 = [].
Proof. vm_compute. auto. Qed.

Lemma chart_iff_submitted_and_returned_witness :
  ∃ chart, Pyplot chart
    ∈ (streamlit_app demo_model (demo_sql "query") (demo_sql "info")
         (demo_sql "rentals") (demo_sql "ok") demo_now demo_forecast
         demo_validate 1 true "Please Create a Prediction GRAPH for Newark"
         (demo_state 1 ∅)).2.
Proof.
  refine (proj2 (proj1
    (chart_iff_submitted_and_returned demo_model (demo_sql "query")
       (demo_sql "info") (demo_sql "rentals") (demo_sql "ok") demo_now
       demo_forecast demo_validate 1 1 true
       "Please Create a Prediction GRAPH for Newark" (demo_state 1 ∅) 0%nat))
    _).
  split_and!.
  - reflexivity.
  - reflexivity.
  - exists "please ", " for newark". reflexivity.
Defined.

End Demo.

(** ** The geo table and the load as a whole (source lines 134-210) *)

Module Load.
Import PyDatetime ETL.

(** One row of the geo CSV, with the columns the script reads. *)
Record GeoRow := {
  zipcode : string;
  csv_city : string;
  csv_county : string;
  state_abbr : string
}.

Definition geo_of (r : GeoRow) : Geo :=
  {| city := csv_city r; county := csv_county r; state := state_abbr r |}.

(** [for row in zipData.iterrows(): zipHash[row[1]["zipcode"]] = {...}] *)
Definition build_zipHash (zipData : list GeoRow) : gmap string Geo :=
  fold_left (λ h r, <[zipcode r := geo_of r]> h) zipData ∅.

(** How a stored record relates to the dataset row it was written for. *)
Definition stored_from (zipHash : gmap string Geo) (rec : Rental) (row : Row)
    : Prop :=
  ∃ geo, zipHash !! normalize_zip (Region row) = Some geo
    ∧ rec = rental_of (id rec) (normalize_zip (Region row)) geo row.

Definition sample_csv : list GeoRow :=
  [ {| zipcode := "01012"; csv_city := "Old name"; csv_county := "Hampshire";
       state_abbr := "MA" |};
    {| zipcode := "07302"; csv_city := "Jersey City"; csv_county := "Hudson";
       state_abbr := "NJ" |};
    {| zipcode := "01012"; csv_city := "Chesterfield";
       csv_county := "Hampshire"; state_abbr := "MA" |} ].

Lemma build_zipHash_snoc zipData r :
  build_zipHash (zipData ++ [r])
  = <[zipcode r := geo_of r]> (build_zipHash zipData).
Proof. unfold build_zipHash. by rewrite fold_left_app. Qed.

Lemma build_zipHash_keys zipData z g :
  build_zipHash zipData !! z = Some g →
  ∃ r, r ∈ zipData ∧ zipcode r = z ∧ g = geo_of r.
Proof.
  induction zipData as [|r zipData IH] using rev_ind; [done|].
  rewrite build_zipHash_snoc.
  intros [[Hz Hg] | [Hne Hold]]%lookup_insert_Some.
  - exists r. rewrite elem_of_app, list_elem_of_singleton. auto.
  - destruct (IH Hold) as (r' & Hr' & ?). exists r'.
    rewrite elem_of_app. auto.
Qed.

(** X1: the geo table maps a zip to the fields of the last CSV row with
    that zipcode, and has no entry for a zip no row carries. *)
Theorem build_zipHash_last_wins (zipData : list GeoRow) (z : string) :
  build_zipHash zipData !! z
  = geo_of <$> last (filter (λ r, zipcode r = z) zipData).
Proof.
  induction zipData as [|r zipData IH] using rev_ind; [reflexivity|].
  rewrite build_zipHash_snoc, filter_app, filter_cons, filter_nil.
  destruct (decide (zipcode r = z)) as [Heq | Hne].
  - rewrite Heq, lookup_insert_eq, last_snoc. reflexivity.
  - rewrite lookup_insert_ne by done. by rewrite app_nil_r.
Qed.



(** A NaN rent passes the test of the loop and is stored as a null. *)
Example nan_rent_stored_as_null :
  map rent (etl sample_geo [sample_row 0 "1012" (Some nan)]) = [None].
Proof. reflexivity. Qed.

(** X3: from the CSV to the table: when every zipcode of the CSV has 5
    characters, every stored zip has 5 characters and is the zipcode of a
    CSV row whose city, county and state the record carries. *)
Theorem load_zip_from_csv (zipData : list GeoRow) (dataset : list Row)
    (rec : Rental) :
  Forall (λ r, String.length (zipcode r) = 5%nat) zipData →
  rec ∈ etl (build_zipHash zipData) dataset →
  String.length (r_zip rec) = 5%nat
  ∧ ∃ r, r ∈ zipData ∧ zipcode r = r_zip rec
      ∧ r_city rec = csv_city r ∧ r_county rec = csv_county r
      ∧ r_state rec = state_abbr r.
Proof.
  intros Hcsv Hin. unfold etl in Hin.
  apply etl_for_provenance in Hin
    as [Hin | (row & geo & key & _ & _ & Hgeo & ->)].
  { simpl in Hin. by apply elem_of_nil in Hin. }
  apply build_zipHash_keys in Hgeo as (r & Hr & Hz & ->).
  simpl. split.
  - rewrite <- Hz. rewrite Forall_forall in Hcsv. by apply Hcsv.
  - exists r. auto.
Qed.

Lemma load_zip_from_csv_witness :
  String.length "01012" = 5%nat
  ∧ ∃ r, r ∈ sample_csv ∧ zipcode r = "01012"
      ∧ "Chesterfield" = csv_city r ∧ "Hampshire" = csv_county r
      ∧ "MA" = state_abbr r.
Proof.
  apply (load_zip_from_csv sample_csv sample_dataset
           (rental_of 1 "01012" {| city := "Chesterfield";
                                   county := "Hampshire"; state := "MA" |}
              (sample_row 0 "1012" (Some 1500%float)))).
  - repeat constructor.
  - apply elem_of_cons. left. reflexivity.
Defined.

Lemma etl_for_grows zipHash dataset st :
  ∃ ext, db (etl_for zipHash dataset st) = db st ++ ext.
Proof.
  revert st. induction dataset as [|r ds IH]; intros st; simpl.
  - exists []. by rewrite app_nil_r.
  - destruct (accepted zipHash r) eqn:Hacc.
    + destruct (etl_body_accepted zipHash r st Hacc) as (geo & _ & ->).
      destruct (row_limit <=? row_count st + 1)%Z; simpl; [eauto|].
      destruct (IH {| db := db st ++ [rental_of (Z.of_nat (length (db st)) + 1)
                                        (normalize_zip (Region r)) geo r];
                      row_count := row_count st + 1 |}) as [ext ->].
      simpl. rewrite <- app_assoc. eauto.
    + apply accepted_false in Hacc.
      rewrite (etl_body_rejected zipHash _ _ Hacc). apply IH.
Qed.

Lemma etl_for_stored zipHash dataset st :
  etl_inv st →
  ∃ news, db (etl_for zipHash dataset st) = db st ++ news
    ∧ Forall2 (stored_from zipHash) news
        (take (Z.to_nat (row_limit - row_count st))
              (List.filter (accepted zipHash) dataset)).
Proof.
  revert st. induction dataset as [|r ds IH]; intros st Hinv; simpl.
  - exists []. rewrite app_nil_r, take_nil. split; [done | constructor].
  - pose proof (etl_body_inv zipHash r st Hinv) as (_ & _ & Hcont).
    destruct (accepted zipHash r) eqn:Hacc.
    + destruct (etl_body_accepted zipHash r st Hacc) as (geo & Hgeo & Hbody).
      rewrite Hbody in *. simpl in Hcont.
      assert (Hrec : stored_from zipHash
                (rental_of (Z.of_nat (length (db st)) + 1)
                   (normalize_zip (Region r)) geo r) r).
      { exists geo. split; [exact Hgeo | reflexivity]. }
      destruct Hinv as [Hcnt Hlt].
      destruct (Z.leb_spec row_limit (row_count st + 1)) as [Hfull | Hroom].
      * eexists. split; [reflexivity|].
        replace (Z.to_nat (row_limit - row_count st)) with 1%nat by lia.
        simpl. rewrite take_0. repeat constructor. exact Hrec.
      * destruct (IH _ (Hcont eq_refl)) as (news & -> & Hnews).
        simpl in *. eexists. rewrite <- app_assoc. split; [reflexivity|].
        replace (Z.to_nat (row_limit - row_count st))
          with (S (Z.to_nat (row_limit - (row_count st + 1)))) by lia.
        simpl. constructor; [exact Hrec | exact Hnews].
    + apply accepted_false in Hacc.
      rewrite (etl_body_rejected zipHash _ _ Hacc). by apply IH.
Qed.

(** C2 (as amended): the table holds one record for each accepted row (of
    the first 10,000), in order, and the record's zip is the row's own
    Region normalized: with one ["0"] in front when the Region has fewer
    than 5 characters, unchanged otherwise.  So a 4-character Region is
    stored with 5 characters (["1012"] as ["01012"]), a 5-character one
    unchanged (["07302"]), and every stored zip has 5 characters when the
    geo table is keyed by 5-character zips. *)
Theorem stored_zip_normalized (zipHash : gmap string Geo)
    (dataset : list Row) :
  Forall2 (λ rec row,
      r_zip rec = normalize_zip (Region row)
      ∧ ((String.length (Region row) < 5)%nat →
         r_zip rec = "0" +:+ Region row)
      ∧ ((5 ≤ String.length (Region row))%nat → r_zip rec = Region row)
      ∧ (String.length (Region row) = 4%nat ∨ String.length (Region row) = 5%nat
         → String.length (r_zip rec) = 5%nat)
      ∧ (Region row = "1012" → r_zip rec = "01012")
      ∧ (Region row = "07302" → r_zip rec = "07302")
      ∧ (geo_keys_5 zipHash → String.length (r_zip rec) = 5%nat))
    (etl zipHash dataset)
    (take (Z.to_nat 10000) (List.filter (accepted zipHash) dataset)).
Proof.
  destruct (etl_for_stored zipHash dataset etl_init etl_init_inv)
    as (news & Hdb & Hnews).
  unfold etl. rewrite Hdb. simpl in *.
  replace (row_limit - 0)%Z with 10000%Z in Hnews by reflexivity.
  eapply Forall2_impl; [exact Hnews|].
  intros rec row (geo & Hgeo & ->). simpl. split_and!.
  - reflexivity.
  - intros Hlt. by apply normalize_zip_short.
  - intros Hge. by apply normalize_zip_long.
  - intros [H4 | H5].
    + rewrite normalize_zip_short by lia. simpl. by rewrite H4.
    + rewrite normalize_zip_long by lia. exact H5.
  - by intros ->.
  - by intros ->.
  - intros Hkeys. exact (Hkeys _ _ Hgeo).
Qed.

(** A Region of three characters, with a geo table that has the padded
    key: the row is accepted and its zip is stored with 4 characters. *)
Definition short_geo : gmap string Geo :=
  {["0501" := {| city := "Holtsville"; county := "Suffolk"; state := "NY" |}]}.

Lemma stored_zip_not_five :
  accepted short_geo (sample_row 0 "501" (Some 1500%float)) = true
  ∧ map r_zip (etl short_geo [sample_row 0 "501" (Some 1500%float)])
    = ["0501"]
  ∧ String.length "0501" ≠ 5%nat.
Proof. split_and!; [reflexivity | reflexivity | discriminate]. Qed.

(** X4: the table holds, in dataset order, one record for each of the
    first 10,000 rows that pass the three tests, each with the normalized
    zip, the geo entry's fields and the row's own fields. *)
Theorem etl_stores_first_accepted (zipHash : gmap string Geo)
    (dataset : list Row) :
  Forall2 (stored_from zipHash) (etl zipHash dataset)
    (take (Z.to_nat 10000) (List.filter (accepted zipHash) dataset)).
Proof.
  destruct (etl_for_stored zipHash dataset etl_init etl_init_inv)
    as (news & Hdb & Hnews).
  unfold etl. rewrite Hdb. simpl in *.
  replace (row_limit - 0)%Z with 10000%Z in Hnews by reflexivity.
  exact Hnews.
Qed.

(** X5: the load of a dataset with more rows at its end starts with the
    load of the shorter dataset, and adds nothing to it once that one has
    filled the table: rows after the 10,000th accepted one are not read. *)
Theorem etl_extends_prefix (zipHash : gmap string Geo)
    (dataset more : list Row) :
  ∃ ext, etl zipHash (dataset ++ more) = etl zipHash dataset ++ ext
    ∧ ((10000 ≤ Z.of_nat (length (etl zipHash dataset)))%Z → ext = []).
Proof.
  unfold etl.
  assert (Hgen : ∀ st, etl_inv st →
    ∃ ext, db (etl_for zipHash (dataset ++ more) st)
           = db (etl_for zipHash dataset st) ++ ext
      ∧ ((row_limit ≤ Z.of_nat (length (db (etl_for zipHash dataset st))))%Z
         → ext = [])).
  { induction dataset as [|r ds IH]; intros st Hinv; simpl.
    - destruct (etl_for_grows zipHash more st) as [ext Hext].
      exists ext. split; [exact Hext|]. destruct Hinv. lia.
    - pose proof (etl_body_inv zipHash r st Hinv) as (_ & _ & Hcont).
      destruct (etl_body zipHash r st) as [st' []]; simpl in *.
      + by apply IH, Hcont.
      + exists []. by rewrite app_nil_r. }
  apply (Hgen etl_init etl_init_inv).
Qed.

(** X15: the normalization adds at most one character, a leading ["0"],
    and only to a Region shorter than 5 characters; the result has exactly 5
    characters just when the Region has 4 or 5, so an empty or a very short
    Region is not brought to 5. *)
Theorem normalize_zip_one_zero (region : string) :
  (normalize_zip region = region ∨ normalize_zip region = "0" +:+ region)
  ∧ (normalize_zip region = region ↔ (5 ≤ String.length region)%nat)
  ∧ String.length (normalize_zip region)
    = (if decide (String.length region < 5)%nat
       then S (String.length region) else String.length region)
  ∧ (String.length (normalize_zip region) = 5%nat
     ↔ String.length region = 4%nat ∨ String.length region = 5%nat).
Proof.
  destruct (decide (String.length region < 5)%nat) as [Hlt | Hge].
  - rewrite (normalize_zip_short region Hlt).
    assert (Hne : "0" +:+ region ≠ region).
    { intros Heq. apply (f_equal String.length) in Heq. simpl in Heq. lia. }
    split_and!.
    + by right.
    + split; [done | lia].
    + reflexivity.
    + simpl. lia.
  - rewrite (normalize_zip_long region) by lia. split_and!.
    + by left.
    + split; [lia | done].
    + reflexivity.
    + lia.
Qed.

(** The limit at work: 10,050 accepted rows fill the table to 10,000. *)
Example etl_cap_reached :
  length (etl sample_geo
            (repeat (sample_row 0 "1012" (Some 1500%float)) (Z.to_nat 10050)))
  = Z.to_nat 10000.
Proof. vm_compute. reflexivity. Qed.

End Load.

(** ** The forecast adapter (source lines 58-80) *)

Module Forecast.
Import Agent.

(** What [chronos_prediction] hands to [plt]. *)
Record Plot := {
  plot_historical : list float;
  plot_index : list Z;
  plot_median : list float;
  plot_low : list float;
  plot_high : list float
}.

(** Column [j] of a two-dimensional array given by its rows. *)
Definition column (j : nat) (a : list (list float)) : list float :=
  omap (λ row, row !! j) a.

(** [a.shape[1]] of a two-dimensional array with at least one row. *)
Definition ncols (a : list (list float)) : nat :=
  match a with
  | [] => 0%nat
  | row :: _ => length row
  end.

(** The levels [[0.1, 0.5, 0.9]], as the binary64 values Python reads. *)
Definition levels : list float :=
  [0x1.999999999999ap-4; 0.5; 0x1.ccccccccccccdp-1]%float.

Section Chronos.

(** The collaborators: the pretrained pipeline ([pipeline.predict] gives a
    tensor indexed by series, sample and step) and numpy's quantile of a
    one-dimensional sample at one level. *)
Variable pipeline_predict : list float → Z → list (list (list float)).
Variable quantile : list float → float → float.

(** [np.quantile(a, qs, axis=0)]: for each level, the quantile of each
    column. *)
Definition quantile_axis0 (a : list (list float)) (qs : list float)
    : list (list float) :=
  map (λ q, map (λ j, quantile (column j a) q) (seq 0 (ncols a))) qs.

(** [chronos_prediction(historical, length)]: the median and what is
    plotted; [None] stands for an exception ([forecast[0]] on an empty
    tensor, or [plt] refusing x and y of different lengths). *)
Definition chronos_prediction (historical : list float) (length : Z)
    : option (list float * Plot) :=
  let forecast := pipeline_predict historical length in
  let forecast_index :=
    range (Z.of_nat (List.length historical))
          (Z.of_nat (List.length historical) + length) in
  match forecast !! 0%nat with
  | None => None
  | Some samples =>
    match quantile_axis0 samples levels with
    | [low; median; high] =>
      if Nat.eqb (List.length forecast_index) (List.length median)
      then Some (median,
                 {| plot_historical := historical;
                    plot_index := forecast_index;
                    plot_median := median;
                    plot_low := low;
                    plot_high := high |})
      else None
    | _ => None
    end
  end.





End Chronos.

(** A stand-in pipeline (three samples of the asked number of steps) and a
    stand-in quantile (an element of the sample picked by the level). *)
Definition demo_pipeline (historical : list float) (length : Z)
    : list (list (list float)) :=
  [ map (λ k, map (λ i, (float_of_Z (Z.of_nat k) * 100
                         + float_of_Z (Z.of_nat i))%float)
                  (seq 0 (Z.to_nat length)))
        (seq 1 3) ].

Definition demo_quantile (sample : list float) (q : float) : float :=
  let n := List.length sample in
  let k := if (q <? 0.25)%float then 0%nat
           else if (q <? 0.75)%float then (n / 2)%nat else (n - 1)%nat in
  default 0%float (sample !! k).

Example demo_chronos_prediction :
  fst <$> chronos_prediction demo_pipeline demo_quantile
            [1500; 1600; 1650]%float 2
  = Some [200; 201]%float.
Proof. reflexivity. Qed.


(** With samples shorter than the horizon the plot is refused. *)
Example short_samples_refused :
  chronos_prediction (λ _ _, [ [ [1; 2]%float ] ]) demo_quantile
    [1500; 1600]%float 3 = None.
Proof. reflexivity. Qed.

End Forecast.
